(** * helm-learning/deploy.sh: the deployment script, embedded and verified

    The script sequences [kind], [kubectl] and [helm] invocations under
    [set -e].  It never captures the output of a command in a variable: every
    decision it takes is taken on an exit status, either of a simple command
    or of a pipeline ending in [grep].  The embedding therefore has

    - the external tools as an abstract collaborator: a world type and a
      function that gives, for each simple command, its exit status, the
      lines it writes on standard output and the world it leaves behind;
    - [grep] and the shell itself ([set -e], [if], [for], [case], [exit])
      written out;
    - a log of everything the script runs or prints, in order.

    [grep] reads its pattern as a basic regular expression.  The patterns
    of the script are built from the names "nur-dev", "nur-prd",
    "echo-server-dev" and "echo-server-prd", in which no character is
    special: for such literal texts ([bre_literal]) ["^name$"] is line
    equality and an unanchored pattern a substring test, and this is what
    [line_matches] computes.  A theorem that looks into the lines for a name
    or environment left open assumes the name literal. *)

From Stdlib Require Import List String Ascii Bool Arith Lia Sorted.
Import ListNotations.
Open Scope string_scope.
Open Scope list_scope.

Set Implicit Arguments.

(** ** Commands *)

(** The simple commands of the script.  Redirections ([2>/dev/null],
    [&>/dev/null]) only silence a command and are not represented. *)
Inductive Simple : Type :=
| KindGetClusters                                   (* kind get clusters *)
| KindCreateCluster (name : string)                 (* kind create cluster --name N *)
| KubectlGetContexts                                (* kubectl config get-contexts -o name *)
| KubectlUseContext (context : string)              (* kubectl config use-context C *)
| KubectlGetNamespace (ns : string)                 (* kubectl get namespace NS *)
| KubectlCreateNamespace (ns : string)              (* kubectl create namespace NS *)
| HelmList (ns : string)                            (* helm list -n NS *)
| HelmUpgrade (release chart values ns : string) (wait : bool)
                                                    (* helm upgrade R CHART -f V --namespace NS [--wait] *)
| HelmInstall (release chart values ns : string) (wait : bool)
                                                    (* helm install R CHART -f V --namespace NS [--wait] *)
| HelmUninstall (release ns : string)               (* helm uninstall R -n NS *)
| KubectlGet (resource ns label : string).          (* kubectl get RES -n NS -l LABEL *)

(** A [grep] pattern: ["^text$"] when anchored, ["text"] otherwise. *)
Record Pattern : Type := Pat { anchored : bool; text : string }.

(** What the shell runs: a simple command, or [simple | grep [-q] pattern]. *)
Inductive Cmd : Type :=
| Plain (s : Simple)
| PipeGrep (s : Simple) (quiet : bool) (p : Pattern).

Inductive Level : Type := Info | Error | Warning.

(** The log.  [Test] is a command run as the condition of an [if], where
    [set -e] does not apply; [Run] is a command run as a statement. *)
Inductive Event : Type :=
| Check (tool : string) (found : bool) (* command -v tool &> /dev/null, in an [if] *)
| Test (c : Cmd) (status : nat)
| Run (c : Cmd) (status : nat)
| Say (l : Level) (msg : string)       (* print_info, print_error, print_warning *)
| Echo (msg : string)                  (* echo "..." *)
| Usage.                               (* show_usage: the here-document *)

(** ** grep *)

Fixpoint is_infix (pat s : string) : bool :=
  String.prefix pat s ||
  match s with
  | EmptyString => false
  | String _ rest => is_infix pat rest
  end.

(** Whether [grep] selects the line, for a pattern whose text is literal
    (see [bre_literal] below): the line itself for ["^text$"], a part of the
    line otherwise. *)
Definition line_matches (p : Pattern) (line : string) : bool :=
  if anchored p then String.eqb (text p) line else is_infix (text p) line.

(** Exit status of [grep]: 0 when some line matches, 1 otherwise. *)
Definition grep_status (p : Pattern) (lines : list string) : nat :=
  if existsb (line_matches p) lines then 0 else 1.

(** [${ENV^^}] *)
Definition upcase_ascii (c : ascii) : ascii :=
  let n := nat_of_ascii c in
  if ((97 <=? n)%nat && (n <=? 122)%nat)%bool then ascii_of_nat (n - 32) else c.

Fixpoint upcase (s : string) : string :=
  match s with
  | EmptyString => EmptyString
  | String c rest => String (upcase_ascii c) (upcase rest)
  end.

(** ** The shell *)

Inductive Outcome (A : Type) : Type :=
| Ret (a : A)          (* the command list ran to its end *)
| Exit (code : nat).   (* the shell exited: [exit n], or [set -e] *)
Arguments Ret {A} a.
Arguments Exit {A} code.

Section Script.

(** The collaborators. *)
Variable World : Type.

Record Reply : Type := mkReply
  { status : nat; stdout : list string; next : World }.

(** [kind], [kubectl], [helm]. *)
Variable exec : Simple -> World -> Reply.

Record Result (A : Type) : Type := mkResult
  { outcome : Outcome A; world : World; events : list Event }.

Definition Sh (A : Type) : Type := World -> Result A.

Definition ret {A} (a : A) : Sh A :=
  fun w => mkResult (Ret a) w [].

Definition bind {A B} (m : Sh A) (f : A -> Sh B) : Sh B :=
  fun w =>
    match m w with
    | mkResult (Ret a) w1 l1 =>
        match f a w1 with
        | mkResult o w2 l2 => mkResult o w2 (l1 ++ l2)
        end
    | mkResult (Exit n) w1 l1 => mkResult (Exit n) w1 l1
    end.

Definition exit {A} (n : nat) : Sh A :=
  fun w => mkResult (Exit n) w [].

Definition emit (e : Event) : Sh unit :=
  fun w => mkResult (Ret tt) w [e].

Definition say (l : Level) (msg : string) : Sh unit := emit (Say l msg).
Definition print_info := say Info.
Definition print_error := say Error.
Definition print_warning := say Warning.
Definition echo (msg : string) : Sh unit := emit (Echo msg).

(** Exit status of a command and the world it leaves.  The status of a
    pipeline is that of its last command ([pipefail] is not set). *)
Definition cmd_reply (c : Cmd) (w : World) : nat * World :=
  match c with
  | Plain s => let r := exec s w in (status r, next r)
  | PipeGrep s _ p => let r := exec s w in (grep_status p (stdout r), next r)
  end.

(** A command as the condition of an [if]: its status is the answer. *)
Definition test (c : Cmd) : Sh bool :=
  fun w =>
    let '(st, w') := cmd_reply c w in
    mkResult (Ret (Nat.eqb st 0)) w' [Test c st].

(** A command as a statement, under [set -e]. *)
Definition run (c : Cmd) : Sh unit :=
  fun w =>
    let '(st, w') := cmd_reply c w in
    mkResult (if Nat.eqb st 0 then Ret tt else Exit st) w' [Run c st].

(** [for X in l; do body; done] *)
Fixpoint for_in (l : list string) (body : string -> Sh unit) : Sh unit :=
  match l with
  | [] => ret tt
  | x :: rest => bind (body x) (fun _ => for_in rest body)
  end.

End Script.

Arguments ret {World A} a.
Arguments exit {World A} n.
Arguments emit {World} e.
Arguments say {World} l msg%_string.
Arguments print_info {World} msg%_string.
Arguments print_error {World} msg%_string.
Arguments print_warning {World} msg%_string.
Arguments echo {World} msg%_string.
Arguments mkResult {World A} outcome world events.

Declare Scope sh_scope.
Delimit Scope sh_scope with sh.
Notation "x <- m ;; k" := (bind m (fun x => k))
  (at level 61, m at next level, right associativity) : sh_scope.
Notation "m ;; k" := (bind m (fun _ => k))
  (at level 61, right associativity) : sh_scope.
Open Scope sh_scope.

(** ** deploy.sh *)

Section Deploy.

Variable World : Type.

(** [kind], [kubectl], [helm]. *)
Variable exec : Simple -> World -> Reply World.

(** [command -v tool]: a shell builtin, a lookup on the PATH. *)
Variable on_path : World -> string -> bool.

Local Abbreviation Sh := (Sh World).
Local Abbreviation test := (test exec).
Local Abbreviation run := (run exec).

(** [kind get clusters 2>/dev/null | grep -q "^$1$"] *)
Definition cluster_exists (name : string) : Sh bool :=
  test (PipeGrep KindGetClusters true (Pat true name)).

(** [kubectl config get-contexts -o name 2>/dev/null | grep -q "^kind-$1$"] *)
Definition context_exists (name : string) : Sh bool :=
  test (PipeGrep KubectlGetContexts true (Pat true ("kind-" ++ name))).

(** [helm list -n "$NAMESPACE" | grep -q "echo-server-${ENV}"] *)
Definition release_probe (ENV NAMESPACE : string) : Cmd :=
  PipeGrep (HelmList NAMESPACE) true (Pat false ("echo-server-" ++ ENV)).

(** *** deploy_environment, block by block *)

(** [# Check if cluster exists] *)
Definition deploy_cluster (CLUSTER_NAME : string) : Sh unit :=
  found <- cluster_exists CLUSTER_NAME ;;
  if negb found then
    print_error ("Cluster " ++ CLUSTER_NAME ++ " does not exist!") ;;
    print_info ("Creating cluster " ++ CLUSTER_NAME ++ "...") ;;
    run (Plain (KindCreateCluster CLUSTER_NAME))
  else
    print_info ("Cluster " ++ CLUSTER_NAME ++ " already exists").

(** [# Switch context] *)
Definition deploy_context (CLUSTER_NAME : string) : Sh unit :=
  print_info "Switching to cluster context..." ;;
  run (Plain (KubectlUseContext ("kind-" ++ CLUSTER_NAME))).

(** [# Create namespace if it doesn't exist] *)
Definition deploy_namespace (NAMESPACE : string) : Sh unit :=
  found <- test (Plain (KubectlGetNamespace NAMESPACE)) ;;
  if negb found then
    print_info ("Creating namespace " ++ NAMESPACE ++ "...") ;;
    run (Plain (KubectlCreateNamespace NAMESPACE))
  else
    print_info ("Namespace " ++ NAMESPACE ++ " already exists").

(** [# Check if Helm release exists] *)
Definition deploy_release (ENV VALUES_FILE NAMESPACE : string) : Sh unit :=
  found <- test (release_probe ENV NAMESPACE) ;;
  if found then
    print_warning ("Release echo-server-" ++ ENV ++ " already exists. Upgrading...") ;;
    run (Plain (HelmUpgrade ("echo-server-" ++ ENV) "." VALUES_FILE NAMESPACE true)) ;;
    print_info "Upgrade completed successfully!"
  else
    print_info "Installing new release..." ;;
    run (Plain (HelmInstall ("echo-server-" ++ ENV) "." VALUES_FILE NAMESPACE true)) ;;
    print_info "Installation completed successfully!".

(** [# Display deployment status] *)
Definition deploy_display (ENV NAMESPACE : string) : Sh unit :=
  print_info "Deployment status:" ;;
  run (Plain (KubectlGet "deployments" NAMESPACE ("environment=" ++ ENV))) ;;
  echo "" ;;
  run (Plain (KubectlGet "pods" NAMESPACE ("environment=" ++ ENV))) ;;
  echo "" ;;
  run (Plain (KubectlGet "services" NAMESPACE ("environment=" ++ ENV))) ;;
  echo "".

Definition deploy_environment (ENV CLUSTER_NAME VALUES_FILE NAMESPACE : string) : Sh unit :=
  print_info ("Deploying to " ++ ENV ++ " environment on cluster " ++ CLUSTER_NAME ++ "...") ;;
  deploy_cluster CLUSTER_NAME ;;
  deploy_context CLUSTER_NAME ;;
  deploy_namespace NAMESPACE ;;
  deploy_release ENV VALUES_FILE NAMESPACE ;;
  deploy_display ENV NAMESPACE.

Definition show_usage : Sh unit := emit Usage.

(** *** show_status *)

(** The body of [for ENV in dev prd] in [show_status], with
    [CLUSTER="kind-nur-${ENV}"] and [NAMESPACE="${ENV}"]. *)
Definition status_env (ENV : string) : Sh unit :=
  let CLUSTER := ("kind-nur-" ++ ENV)%string in
  let NAMESPACE := ENV in
  (found <- cluster_exists ("nur-" ++ ENV) ;;
   if found then
     print_info ("=== " ++ upcase ENV ++ " Environment (" ++ CLUSTER ++ ") ===") ;;
     run (Plain (KubectlUseContext CLUSTER)) ;;
     released <- test (release_probe ENV NAMESPACE) ;;
     if released then
       run (PipeGrep (HelmList NAMESPACE) false (Pat false ("echo-server-" ++ ENV))) ;;
       echo "" ;;
       run (Plain (KubectlGet "pods" NAMESPACE ("environment=" ++ ENV))) ;;
       echo ""
     else
       print_warning ("No Helm release found in " ++ ENV)
   else
     print_warning ("Cluster " ++ CLUSTER ++ " does not exist")) ;;
  echo "".

Definition show_status : Sh unit :=
  print_info "Checking deployment status..." ;;
  echo "" ;;
  for_in ["dev"; "prd"] status_env.

(** *** clean_deployments *)

(** The body of [for ENV in dev prd] in [clean_deployments]. *)
Definition clean_env (ENV : string) : Sh unit :=
  let CLUSTER := ("kind-nur-" ++ ENV)%string in
  let NAMESPACE := ENV in
  found <- cluster_exists ("nur-" ++ ENV) ;;
  if found then
    print_info ("Cleaning " ++ ENV ++ " environment...") ;;
    run (Plain (KubectlUseContext CLUSTER)) ;;
    released <- test (release_probe ENV NAMESPACE) ;;
    if released then
      run (Plain (HelmUninstall ("echo-server-" ++ ENV) NAMESPACE)) ;;
      print_info (ENV ++ " release uninstalled")
    else
      print_warning ("No release found in " ++ ENV)
  else
    ret tt.

Definition clean_deployments : Sh unit :=
  print_warning "Cleaning up all deployments..." ;;
  for_in ["dev"; "prd"] clean_env ;;
  print_info "Cleanup completed!".

(** *** main *)

(** [command -v tool &> /dev/null] *)
Definition command_v (tool : string) : Sh bool :=
  fun w => mkResult (Ret (on_path w tool)) w [Check tool (on_path w tool)].

(** [if ! command -v tool &> /dev/null; then print_error ...; exit 1; fi] *)
Definition require_tool (tool msg : string) : Sh unit :=
  found <- command_v tool ;;
  if negb found then
    print_error msg ;;
    exit 1
  else
    ret tt.

(** [main "$@"]: only [$1] is read, as ["${1:-help}"]. *)
Definition first_arg (args : list string) : string :=
  match args with
  | [] => "help"
  | a :: _ => if String.eqb a "" then "help" else a
  end.

Definition dispatch (args : list string) : Sh unit :=
  let a := first_arg args in
  if String.eqb a "dev" then
    deploy_environment "dev" "nur-dev" "values-dev.yaml" "dev"
  else if String.eqb a "prd" then
    deploy_environment "prd" "nur-prd" "values-prd.yaml" "prd"
  else if String.eqb a "all" then
    deploy_environment "dev" "nur-dev" "values-dev.yaml" "dev" ;;
    echo "" ;;
    print_info "==========================================" ;;
    echo "" ;;
    deploy_environment "prd" "nur-prd" "values-prd.yaml" "prd"
  else if String.eqb a "status" then
    show_status
  else if String.eqb a "clean" then
    clean_deployments
  else if (String.eqb a "help" || String.eqb a "--help" || String.eqb a "-h")%bool then
    show_usage
  else
    print_error ("Unknown option: " ++ hd "" args) ;;
    echo "" ;;
    show_usage ;;
    exit 1.

Definition main (args : list string) : Sh unit :=
  require_tool "helm" "Helm is not installed. Please install Helm first." ;;
  require_tool "kind" "kind is not installed. Please install kind first." ;;
  require_tool "kubectl" "kubectl is not installed. Please install kubectl first." ;;
  dispatch args.

(** The exit status of the script: that of [main "$@"], its last command.
    Every command list that [main] can run to its end finishes with an
    [echo] or a [print_info], whose status is 0. *)
Definition exit_status (r : Result World unit) : nat :=
  match outcome r with
  | Ret _ => 0
  | Exit n => n
  end.

End Deploy.

Arguments exit_status {World} r.

(** ** A reference model of the collaborators

    A small executable model of what [kind], [kubectl] and [helm] do, used to
    run the script on concrete machines.  The theorems below are stated for
    an arbitrary collaborator; this one only supplies concrete runs. *)

Module Sim.

Record machine : Type := mkMachine
  { path : list string;                          (* tools on the PATH *)
    docker_up : bool;                            (* kind needs a container runtime *)
    clusters : list string;                      (* kind clusters *)
    current : string;                            (* current kubectl context *)
    namespaces : list (string * string);         (* (context, namespace) *)
    releases : list (string * string * string)   (* (context, namespace, release) *) }.

Definition mem (x : string) (l : list string) : bool := existsb (String.eqb x) l.

Definition same2 (a b : string * string) : bool :=
  (String.eqb (fst a) (fst b) && String.eqb (snd a) (snd b))%bool.

Definition same3 (a b : string * string * string) : bool :=
  (same2 (fst a) (fst b) && String.eqb (snd a) (snd b))%bool.

Definition has_namespace (m : machine) (ns : string) : bool :=
  existsb (same2 (current m, ns)) (namespaces m).

Definition has_release (m : machine) (ns r : string) : bool :=
  existsb (same3 (current m, ns, r)) (releases m).

Definition contexts (m : machine) : list string :=
  map (String.append "kind-") (clusters m).

Definition set_clusters (m : machine) (cs : list string) (ctx : string) : machine :=
  mkMachine (path m) (docker_up m) cs ctx (namespaces m) (releases m).

Definition set_current (m : machine) (ctx : string) : machine :=
  mkMachine (path m) (docker_up m) (clusters m) ctx (namespaces m) (releases m).

Definition set_namespaces (m : machine) (l : list (string * string)) : machine :=
  mkMachine (path m) (docker_up m) (clusters m) (current m) l (releases m).

Definition set_releases (m : machine) (l : list (string * string * string)) : machine :=
  mkMachine (path m) (docker_up m) (clusters m) (current m) (namespaces m) l.

Definition ok (out : list string) (m : machine) : Reply machine := mkReply 0 out m.
Definition failed (m : machine) : Reply machine := mkReply 1 [] m.

(** One line of [helm list] per release of the namespace, after the header. *)
Definition helm_rows (m : machine) (ns : string) : list string :=
  map (fun r => (snd r ++ " " ++ ns ++ " 1 deployed")%string)
      (filter (fun r => same2 (fst r) (current m, ns)) (releases m)).

Definition exec (c : Simple) (m : machine) : Reply machine :=
  match c with
  | KindGetClusters => ok (clusters m) m
  | KindCreateCluster n =>
      if (docker_up m && negb (mem n (clusters m)))%bool
      then ok [] (set_clusters m (clusters m ++ [n]) ("kind-" ++ n))
      else failed m
  | KubectlGetContexts => ok (contexts m) m
  | KubectlUseContext c =>
      if mem c (contexts m) then ok [] (set_current m c) else failed m
  | KubectlGetNamespace ns =>
      if has_namespace m ns then ok [ns] m else failed m
  | KubectlCreateNamespace ns =>
      if (mem (current m) (contexts m) && negb (has_namespace m ns))%bool
      then ok [] (set_namespaces m ((current m, ns) :: namespaces m))
      else failed m
  | HelmList ns =>
      if mem (current m) (contexts m)
      then ok ("NAME NAMESPACE REVISION STATUS" :: helm_rows m ns) m
      else failed m
  | HelmUpgrade r _ _ ns _ =>
      if has_release m ns r then ok [] m else failed m
  | HelmInstall r _ _ ns _ =>
      if (has_namespace m ns && negb (has_release m ns r))%bool
      then ok [] (set_releases m ((current m, ns, r) :: releases m))
      else failed m
  | HelmUninstall r ns =>
      if has_release m ns r
      then ok [] (set_releases m
                    (filter (fun x => negb (same3 x (current m, ns, r))) (releases m)))
      else failed m
  | KubectlGet _ ns _ =>
      if mem (current m) (contexts m) then ok [] m else failed m
  end.

Definition on_path (m : machine) (tool : string) : bool := mem tool (path m).

Definition tools : list string := ["helm"; "kind"; "kubectl"].

(** A fresh workstation: the three tools, no cluster yet. *)
Definition fresh : machine := mkMachine tools true [] "" [] [].

(** The same workstation with the container runtime stopped. *)
Definition no_docker : machine := mkMachine tools false [] "" [] [].

(** A workstation on which helm was never installed. *)
Definition no_helm : machine := mkMachine ["kind"; "kubectl"] true [] "" [] [].

(** Both clusters exist, dev has its release, the current context is prd. *)
Definition dev_released : machine :=
  mkMachine tools true ["nur-dev"; "nur-prd"] "kind-nur-prd"
    [("kind-nur-dev", "dev")] [("kind-nur-dev", "dev", "echo-server-dev")].

(** Only the dev cluster exists, with nothing installed in it; kubectl
    currently points at another cluster. *)
Definition dev_only : machine :=
  mkMachine tools true ["nur-dev"] "docker-desktop" [] [].

(** The prd cluster exists, the dev cluster does not, and the container
    runtime is stopped: no cluster can be created. *)
Definition prd_only_no_docker : machine :=
  mkMachine tools false ["nur-prd"] "kind-nur-prd" [] [].

Definition run_main (args : list string) (m : machine) : Result machine unit :=
  main exec on_path args m.

End Sim.

(** ** Reading the log *)

Definition command_of (e : Event) : option Cmd :=
  match e with
  | Test c _ | Run c _ => Some c
  | _ => None
  end.

(** The commands of a log, in the order they were run. *)
Fixpoint commands (l : list Event) : list Cmd :=
  match l with
  | [] => []
  | e :: rest =>
      match command_of e with
      | Some c => c :: commands rest
      | None => commands rest
      end
  end.

Definition simple_of (c : Cmd) : Simple :=
  match c with
  | Plain s | PipeGrep s _ _ => s
  end.

(** The requests that change something outside the script. *)
Definition is_create (s : Simple) : bool :=
  match s with
  | KindCreateCluster _ | KubectlCreateNamespace _ => true
  | _ => false
  end.

Definition is_release_change (s : Simple) : bool :=
  match s with
  | HelmUpgrade _ _ _ _ _ | HelmInstall _ _ _ _ _ | HelmUninstall _ _ => true
  | _ => false
  end.

Definition is_context_switch (s : Simple) : bool :=
  match s with
  | KubectlUseContext _ => true
  | _ => false
  end.

Definition is_helm (s : Simple) : bool :=
  match s with
  | HelmList _ | HelmUpgrade _ _ _ _ _ | HelmInstall _ _ _ _ _ | HelmUninstall _ _ => true
  | _ => false
  end.

(** A step that failed: a statement whose status is not 0. *)
Definition failed_step (e : Event) : bool :=
  match e with
  | Run _ st => negb (Nat.eqb st 0)
  | _ => false
  end.

Definition is_error (e : Event) : bool :=
  match e with
  | Say Error _ => true
  | _ => false
  end.

(** ** Steps

    Every command belongs to one phase of the work on an environment and is
    addressed to one cluster, context or namespace. *)

Inductive Phase : Type := Cluster | Context | Namespace | Release | Display.

Definition phase_rank (p : Phase) : nat :=
  match p with
  | Cluster => 0
  | Context => 1
  | Namespace => 2
  | Release => 3
  | Display => 4
  end.

Definition phase (s : Simple) : Phase :=
  match s with
  | KindGetClusters | KindCreateCluster _ => Cluster
  | KubectlGetContexts | KubectlUseContext _ => Context
  | KubectlGetNamespace _ | KubectlCreateNamespace _ => Namespace
  | HelmList _ | HelmUpgrade _ _ _ _ _ | HelmInstall _ _ _ _ _ | HelmUninstall _ _ => Release
  | KubectlGet _ _ _ => Display
  end.

(** The name a command is addressed to; for the two listing commands, the
    name that [grep] looks for in the list. *)
Definition target (c : Cmd) : string :=
  match c with
  | PipeGrep KindGetClusters _ p | PipeGrep KubectlGetContexts _ p => text p
  | _ =>
      match simple_of c with
      | KindGetClusters | KubectlGetContexts => ""
      | KindCreateCluster n => n
      | KubectlUseContext c => c
      | KubectlGetNamespace ns | KubectlCreateNamespace ns | HelmList ns
      | HelmUpgrade _ _ _ ns _ | HelmInstall _ _ _ ns _ | HelmUninstall _ ns
      | KubectlGet _ ns _ => ns
      end
  end.

Definition Step : Type := Phase * string.

Definition step_of (c : Cmd) : Step := (phase (simple_of c), target c).

Definition step_eqb (a b : Step) : bool :=
  (Nat.eqb (phase_rank (fst a)) (phase_rank (fst b)) && String.eqb (snd a) (snd b))%bool.

(** Consecutive commands of one step count once. *)
Fixpoint compress (l : list Step) : list Step :=
  match l with
  | [] => []
  | a :: rest =>
      match rest with
      | [] => [a]
      | b :: _ => if step_eqb a b then compress rest else a :: compress rest
      end
  end.

(** The steps of a run, in order. *)
Definition steps (l : list Event) : list Step :=
  compress (map step_of (commands l)).

(** An environment [ENV] of the script has the cluster "nur-ENV", the
    context "kind-nur-ENV" and the namespace "ENV". *)
Definition addressed_to (ENV : string) (c : Cmd) : bool :=
  match phase (simple_of c) with
  | Cluster => String.eqb (target c) ("nur-" ++ ENV)
  | Context => String.eqb (target c) ("kind-nur-" ++ ENV)
  | _ => String.eqb (target c) ENV
  end.

(** The steps of [deploy_environment], in the order of its text. *)
Definition deploy_plan (CLUSTER_NAME NAMESPACE : string) : list Step :=
  [(Cluster, CLUSTER_NAME); (Context, ("kind-" ++ CLUSTER_NAME)%string);
   (Namespace, NAMESPACE); (Release, NAMESPACE); (Display, NAMESPACE)].

Definition known_option (args : list string) : bool :=
  existsb (String.eqb (first_arg args))
    ["dev"; "prd"; "all"; "status"; "clean"; "help"; "--help"; "-h"].

(** The phases of the commands of a log. *)
Definition phases (l : list Event) : list Phase :=
  map (fun c => phase (simple_of c)) (commands l).

(** Decides [StronglySorted le]. *)
Fixpoint ascending (l : list nat) : bool :=
  match l with
  | [] => true
  | a :: rest => (forallb (Nat.leb a) rest && ascending rest)%bool
  end.

(** The log of the three [command -v] checks when every tool is found. *)
Definition tool_checks : list Event :=
  [Check "helm" true; Check "kind" true; Check "kubectl" true].

(** [set -e] as a property of a run: the run ended at its first failed
    step, with the status of that step, and ran to its end when no step
    failed. *)
Definition errexit {World A : Type} (r : Result World A) : Prop :=
  match find failed_step (events r) with
  | Some (Run _ n) => outcome r = Exit n
  | Some _ => False
  | None => exists a, outcome r = Ret a
  end.

(** A script all of whose runs obey [set -e]. *)
Definition obeys_errexit {World A : Type} (m : Sh World A) : Prop :=
  forall w, errexit (m w).

(** ** Probes and requests *)

Section Probes.

Variable World : Type.
Variable exec : Simple -> World -> Reply World.
Variable on_path : World -> string -> bool.

(** The three [command -v] checks of [main] all succeed. *)
Definition tools_present (w : World) : bool :=
  (on_path w "helm" && on_path w "kind" && on_path w "kubectl")%bool.

(** The request that [deploy_environment] sends to helm in world [w]:
    decided by the status of the release probe. *)
Definition release_request (ENV VALUES_FILE NAMESPACE : string) (w : World) : Simple :=
  if Nat.eqb (fst (cmd_reply exec (release_probe ENV NAMESPACE) w)) 0
  then HelmUpgrade ("echo-server-" ++ ENV) "." VALUES_FILE NAMESPACE true
  else HelmInstall ("echo-server-" ++ ENV) "." VALUES_FILE NAMESPACE true.

End Probes.

(** ** More machines for the reference model *)

(** The dev cluster exists and is the current context; nothing is
    installed in it. *)
Definition sim_dev_empty : Sim.machine :=
  Sim.mkMachine Sim.tools true ["nur-dev"] "kind-nur-dev" [] [].

(** The dev namespace holds one release, echo-server-dev-canary, and no
    release named echo-server-dev. *)
Definition sim_canary : Sim.machine :=
  Sim.mkMachine Sim.tools true ["nur-dev"] "kind-nur-dev"
    [("kind-nur-dev", "dev")] [("kind-nur-dev", "dev", "echo-server-dev-canary")].

(** Both clusters exist but the kubeconfig has lost the dev context: the
    machine is [Sim.dev_released] seen through a collaborator whose
    [kubectl config use-context kind-nur-dev] fails. *)
Definition sim_exec_no_dev_context (c : Simple) (m : Sim.machine) : Reply Sim.machine :=
  match c with
  | KubectlUseContext "kind-nur-dev" => Sim.failed m
  | _ => Sim.exec c m
  end.

(** ** Stopping at the first failure *)

(** A run in which nothing follows a failed step: either no step failed and
    the run reached its end, or the last entry of the log is the one failed
    step and the run ended with its status. *)
Definition halts_at_failure {World A : Type} (r : Result World A) : Prop :=
  match outcome r with
  | Ret _ => Forall (fun e => failed_step e = false) (events r)
  | Exit n =>
      exists l c, events r = l ++ [Run c n] /\ n <> 0 /\
                  Forall (fun e => failed_step e = false) l
  end.

Definition always_halts_at_failure {World A : Type} (m : Sh World A) : Prop :=
  forall w, halts_at_failure (m w).

(** ** deploy.ps1: the prerequisite check *)

Section PowerShell.

Variable World : Type.

(** [Get-Command tool -ErrorAction SilentlyContinue] finds the tool. *)
Variable on_path : World -> string -> bool.

(** [if (-not (Get-Command tool ...)) { $missing += "tool" }] *)
Definition note_missing (tool : string) (missing : list string) : Sh World (list string) :=
  found <- command_v on_path tool ;;
  if negb found then ret (missing ++ [tool]) else ret missing.

(** [Test-Prerequisites] *)
Definition Test_Prerequisites : Sh World unit :=
  missing <- note_missing "helm" [] ;;
  missing <- note_missing "kind" missing ;;
  missing <- note_missing "kubectl" missing ;;
  if Nat.ltb 0 (List.length missing) then
    print_error ("Missing required tools: " ++ String.concat ", " missing) ;;
    print_error "Please install the missing tools before running this script." ;;
    exit 1
  else
    ret tt.

End PowerShell.

(** A statement of phase [p] that failed. *)
Definition failed_in (p : Phase) (e : Event) : bool :=
  match e with
  | Run c st =>
      (negb (Nat.eqb st 0) &&
       Nat.eqb (phase_rank (phase (simple_of c))) (phase_rank p))%bool
  | _ => false
  end.

(** Requests that bring something into being. *)
Definition is_provision (s : Simple) : bool :=
  match s with
  | KindCreateCluster _ | KubectlCreateNamespace _
  | HelmInstall _ _ _ _ _ | HelmUpgrade _ _ _ _ _ => true
  | _ => false
  end.

Definition is_uninstall (s : Simple) : bool :=
  match s with
  | HelmUninstall _ _ => true
  | _ => false
  end.


(** ** Literal patterns *)

(** The characters that a basic regular expression may read as something
    other than themselves, and the newline, which separates patterns. *)
Definition bre_special (c : ascii) : bool :=
  existsb (Ascii.eqb c)
    ["\"%char; "."%char; "["%char; "]"%char; "*"%char; "^"%char; "$"%char;
     ascii_of_nat 10].

(** A text that [grep] reads letter for letter.  For such a text
    [line_matches] is what [grep] does; the names that the script passes,
    "nur-dev", "nur-prd", "echo-server-dev" and "echo-server-prd", are
    literal. *)
Fixpoint bre_literal (s : string) : bool :=
  match s with
  | EmptyString => true
  | String c rest => (negb (bre_special c) && bre_literal rest)%bool
  end.

(** ** The table of releases *)

(** [helm list] prints a table with one row for each release of the
    namespace; the row of a release begins with its name, followed by a
    blank or a tab. *)
Definition row_of (release line : string) : bool :=
  (String.prefix (release ++ " ") line ||
   String.prefix (release ++ String (ascii_of_nat 9) "") line)%bool.

(** ** The commands of a deployment *)

(** The commands that [deploy_environment] runs when it reaches its end,
    given what its three probes answered. *)
Definition deployment_commands (ENV CLUSTER_NAME VALUES_FILE NAMESPACE : string)
    (cluster_found namespace_found release_found : bool) : list Cmd :=
  [PipeGrep KindGetClusters true (Pat true CLUSTER_NAME)]
  ++ (if cluster_found then [] else [Plain (KindCreateCluster CLUSTER_NAME)])
  ++ [Plain (KubectlUseContext ("kind-" ++ CLUSTER_NAME));
      Plain (KubectlGetNamespace NAMESPACE)]
  ++ (if namespace_found then [] else [Plain (KubectlCreateNamespace NAMESPACE)])
  ++ [PipeGrep (HelmList NAMESPACE) true (Pat false ("echo-server-" ++ ENV));
      Plain (if release_found
             then HelmUpgrade ("echo-server-" ++ ENV) "." VALUES_FILE NAMESPACE true
             else HelmInstall ("echo-server-" ++ ENV) "." VALUES_FILE NAMESPACE true);
      Plain (KubectlGet "deployments" NAMESPACE ("environment=" ++ ENV));
      Plain (KubectlGet "pods" NAMESPACE ("environment=" ++ ENV));
      Plain (KubectlGet "services" NAMESPACE ("environment=" ++ ENV))].

(** ** Runs that get the same answers *)

(** Two scripts, each on its own kind of world, that behave alike from
    worlds related by [R]: same outcome, same log, and related worlds
    again. *)
Definition alike {W1 W2 A : Type} (R : W1 -> W2 -> Prop)
    (m1 : Sh W1 A) (m2 : Sh W2 A) : Prop :=
  forall w1 w2, R w1 w2 ->
    outcome (m1 w1) = outcome (m2 w2) /\
    events (m1 w1) = events (m2 w2) /\
    R (world (m1 w1)) (world (m2 w2)).

(** Two machines of the reference model that differ at most in what else
    is on the PATH besides helm, kind and kubectl. *)
Definition sim_alike (m1 m2 : Sim.machine) : Prop :=
  Sim.docker_up m1 = Sim.docker_up m2 /\
  Sim.clusters m1 = Sim.clusters m2 /\
  Sim.current m1 = Sim.current m2 /\
  Sim.namespaces m1 = Sim.namespaces m2 /\
  Sim.releases m1 = Sim.releases m2 /\
  forall t, In t Sim.tools -> Sim.on_path m1 t = Sim.on_path m2 t.

(** A fresh workstation with docker and git on the PATH as well. *)
Definition sim_fresh_more_tools : Sim.machine :=
  Sim.mkMachine ["git"; "kubectl"; "docker"; "helm"; "kind"] true [] "" [] [].

(** The release echo-server-dev is installed in the namespace dev of the
    current cluster, but the context of that cluster is gone from the
    kubeconfig: [helm list] fails and prints nothing. *)
Definition sim_lost_context : Sim.machine :=
  Sim.mkMachine Sim.tools true ["nur-dev"] "kind-old"
    [("kind-old", "dev")] [("kind-old", "dev", "echo-server-dev")].

(** * Properties *)

(** ** Two concrete runs *)

(** Status where only the dev cluster exists and nothing is installed. *)
Example status_on_dev_only :
  events (Sim.run_main ["status"] Sim.dev_only) =
  [Check "helm" true; Check "kind" true; Check "kubectl" true;
   Say Info "Checking deployment status..."; Echo "";
   Test (PipeGrep KindGetClusters true (Pat true "nur-dev")) 0;
   Say Info "=== DEV Environment (kind-nur-dev) ===";
   Run (Plain (KubectlUseContext "kind-nur-dev")) 0;
   Test (PipeGrep (HelmList "dev") true (Pat false "echo-server-dev")) 1;
   Say Warning "No Helm release found in dev"; Echo "";
   Test (PipeGrep KindGetClusters true (Pat true "nur-prd")) 1;
   Say Warning "Cluster kind-nur-prd does not exist"; Echo ""].
Proof. reflexivity. Qed.

(** Deploying dev where its release is already installed: an upgrade. *)
Example deploy_dev_again_upgrades :
  commands (events (Sim.run_main ["dev"] Sim.dev_released)) =
  [PipeGrep KindGetClusters true (Pat true "nur-dev");
   Plain (KubectlUseContext "kind-nur-dev");
   Plain (KubectlGetNamespace "dev");
   PipeGrep (HelmList "dev") true (Pat false "echo-server-dev");
   Plain (HelmUpgrade "echo-server-dev" "." "values-dev.yaml" "dev" true);
   Plain (KubectlGet "deployments" "dev" "environment=dev");
   Plain (KubectlGet "pods" "dev" "environment=dev");
   Plain (KubectlGet "services" "dev" "environment=dev")].
Proof. reflexivity. Qed.

(** ** The shell: equations *)

Section ShellFacts.

Variable World : Type.
Variable exec : Simple -> World -> Reply World.

Lemma bind_outcome A B (m : Sh World A) (f : A -> Sh World B) w :
  outcome (bind m f w) =
  match outcome (m w) with
  | Ret a => outcome (f a (world (m w)))
  | Exit n => Exit n
  end.
Proof. unfold bind. destruct (m w) as [[a|n] w1 l1]; cbn; [destruct (f a w1)|]; reflexivity. Qed.

Lemma bind_world A B (m : Sh World A) (f : A -> Sh World B) w :
  world (bind m f w) =
  match outcome (m w) with
  | Ret a => world (f a (world (m w)))
  | Exit _ => world (m w)
  end.
Proof. unfold bind. destruct (m w) as [[a|n] w1 l1]; cbn; [destruct (f a w1)|]; reflexivity. Qed.

Lemma bind_events A B (m : Sh World A) (f : A -> Sh World B) w :
  events (bind m f w) =
  events (m w) ++
  match outcome (m w) with
  | Ret a => events (f a (world (m w)))
  | Exit _ => []
  end.
Proof.
  unfold bind. destruct (m w) as [[a|n] w1 l1]; cbn; [destruct (f a w1); reflexivity|].
  now rewrite app_nil_r.
Qed.

(** A statement either succeeds or ends the script with its own status. *)
Lemma run_outcome c w :
  outcome (run exec c w) =
  if Nat.eqb (fst (cmd_reply exec c w)) 0 then Ret tt
  else Exit (fst (cmd_reply exec c w)).
Proof. unfold run. destruct (cmd_reply exec c w); reflexivity. Qed.

Lemma run_events c w :
  events (run exec c w) = [Run c (fst (cmd_reply exec c w))].
Proof. unfold run. destruct (cmd_reply exec c w); reflexivity. Qed.

Lemma run_world c w :
  world (run exec c w) = snd (cmd_reply exec c w).
Proof. unfold run. destruct (cmd_reply exec c w); reflexivity. Qed.

Lemma test_outcome c w :
  outcome (test exec c w) = Ret (Nat.eqb (fst (cmd_reply exec c w)) 0).
Proof. unfold test. destruct (cmd_reply exec c w); reflexivity. Qed.

Lemma test_events c w :
  events (test exec c w) = [Test c (fst (cmd_reply exec c w))].
Proof. unfold test. destruct (cmd_reply exec c w); reflexivity. Qed.

Lemma test_world c w :
  world (test exec c w) = snd (cmd_reply exec c w).
Proof. unfold test. destruct (cmd_reply exec c w); reflexivity. Qed.

End ShellFacts.

Lemma commands_app l1 l2 : commands (l1 ++ l2) = commands l1 ++ commands l2.
Proof.
  induction l1 as [|e l1 IH]; cbn; [reflexivity|].
  destruct (command_of e); cbn; now rewrite IH.
Qed.

Arguments steps : simpl never.
Arguments phases : simpl never.

(** Symbolic execution of a script: unfold the shell, then split on every
    status the script branches on. *)
Ltac sh_unfold :=
  unfold bind, run, test, print_info, print_error, print_warning, say, echo,
    emit, ret, exit, cmd_reply in *.

Ltac split_on x :=
  lazymatch x with
  | context [match ?y with _ => _ end] => split_on y
  | _ => destruct x eqn:?
  end.

Ltac sh_split :=
  repeat (cbn;
          match goal with
          | |- context [match ?x with _ => _ end] => split_on x
          end).

Ltac sh_exec := sh_unfold; sh_split; cbn.

(** Case analysis on membership in an explicit list. *)
Ltac in_cases H :=
  cbn in H;
  repeat match type of H with
         | _ \/ _ => destruct H as [H|H]
         end;
  try contradiction; try discriminate H.

Ltac zero_status :=
  repeat match goal with
         | H : Nat.eqb _ 0 = true |- _ => apply Nat.eqb_eq in H
         end.

Ltac rewrite_zero :=
  repeat match goal with
         | H : _ = 0 |- _ => rewrite ?H; clear H
         end.

(** To analyse every path of the run [t]: set the property to prove aside,
    execute [t], then look at the property again on each path. *)
Ltac sh_paths t :=
  pattern t;
  match goal with
  | |- ?P _ => let Q := fresh "Property" in remember P as Q
  end.

Ltac sh_done :=
  match goal with
  | H : ?Q = _ |- ?Q _ => subst Q; cbn beta; cbn [events outcome world]
  end.

(** Membership in an explicit list, by search. *)
Ltac find_in := solve [cbn; repeat first [left; reflexivity | right]].

(** Statuses that the path analysis has settled. *)
Ltac settle_statuses :=
  repeat match goal with
         | H : Nat.eqb _ 0 = true |- _ => apply Nat.eqb_eq in H
         | H : negb (Nat.eqb _ 0) = false |- _ =>
             apply negb_false_iff, Nat.eqb_eq in H
         end;
  repeat match goal with
         | H : _ = 0 |- _ => rewrite ?H; clear H
         end.


(** ** Install or upgrade *)

Lemma prefix_app_l a b s : String.prefix (a ++ b) s = true -> String.prefix a s = true.
Proof.
  revert s. induction a as [|c a IH]; intros s; cbn.
  - destruct s; reflexivity.
  - destruct s as [|d s]; cbn; [discriminate|].
    destruct (Ascii.ascii_dec c d); [apply IH|discriminate].
Qed.

Lemma row_of_contains release line :
  row_of release line = true -> is_infix release line = true.
Proof.
  unfold row_of. intros H. apply orb_true_iff in H.
  assert (String.prefix release line = true) as P
    by (destruct H as [H|H]; exact (prefix_app_l _ _ _ H)).
  destruct line; cbn [is_infix]; rewrite P; reflexivity.
Qed.

Lemma row_listed release lines :
  existsb (row_of release) lines = true -> existsb (is_infix release) lines = true.
Proof.
  intros H. apply existsb_exists in H as (l & Hl & R).
  apply existsb_exists. exists l. split; [assumption|now apply row_of_contains].
Qed.

Section ReleaseStep.

Variable World : Type.
Variable exec : Simple -> World -> Reply World.

Lemma grep_contains text lines :
  grep_status (Pat false text) lines = if existsb (is_infix text) lines then 0 else 1.
Proof. reflexivity. Qed.

(** C7, as the script has it.  The install-or-upgrade block of
    [deploy_environment] first runs the release probe, [helm list -n NS |
    grep -q "echo-server-ENV"], and then sends exactly one request, a [helm
    upgrade] or a [helm install]; either names the release echo-server-ENV,
    the chart ".", the values file and the namespace, and has [--wait].
    The block ends the script with the status of the request when that
    fails.  The upgrade is sent when [helm list] prints the row of
    echo-server-ENV; the install is sent when [helm list] prints no line
    that contains that name, which is also the case when [helm list] itself
    fails and prints nothing.  Which of the two is sent when only rows of
    other releases contain the name is not said here.  The block reaches
    its end exactly when it prints one of its two success lines. *)
Theorem deploy_release_probe_then_request ENV VALUES_FILE NAMESPACE w :
  bre_literal ENV = true ->
  let r := deploy_release exec ENV VALUES_FILE NAMESPACE w in
  let release := ("echo-server-" ++ ENV)%string in
  let lines := stdout (exec (HelmList NAMESPACE) w) in
  let sends := fun request =>
    commands (events r) =
    [PipeGrep (HelmList NAMESPACE) true (Pat false release); Plain request] /\
    let answer := status (exec request (next (exec (HelmList NAMESPACE) w))) in
    outcome r = (if Nat.eqb answer 0 then Ret tt else Exit answer) in
  let upgrade := HelmUpgrade release "." VALUES_FILE NAMESPACE true in
  let install := HelmInstall release "." VALUES_FILE NAMESPACE true in
  (sends upgrade \/ sends install) /\
  (existsb (row_of release) lines = true -> sends upgrade) /\
  (existsb (is_infix release) lines = false -> sends install) /\
  (outcome r = Ret tt <->
   In (Say Info "Upgrade completed successfully!") (events r) \/
   In (Say Info "Installation completed successfully!") (events r)).
Proof.
  intros _. cbn zeta.
  pose proof (row_listed ("echo-server-" ++ ENV) (stdout (exec (HelmList NAMESPACE) w))) as L.
  revert L.
  unfold deploy_release, release_probe. sh_unfold. cbn.
  rewrite grep_contains.
  destruct (existsb (is_infix (String "e" _)) (stdout (exec (HelmList NAMESPACE) w)));
    intros L; cbn;
    match goal with
    | |- context [Nat.eqb ?x 0] => destruct (Nat.eqb x 0) eqn:E
    end; cbn.
  all: (split; [|split; [|split; [|split]]]).
  all: try (left; split; reflexivity).
  all: try (right; split; reflexivity).
  all: try (intros H; try discriminate H; try (specialize (L H); discriminate L);
            try (split; reflexivity); cbn; tauto).
  all: intros [H|H]; in_cases H.
Qed.

End ReleaseStep.

(** A first deployment into an empty namespace is an install; a deployment
    where helm lists echo-server-dev is an upgrade. *)
Lemma deploy_release_probe_then_request_witness :
  commands (events (deploy_release Sim.exec "dev" "values-dev.yaml" "dev" sim_dev_empty)) =
  [release_probe "dev" "dev";
   Plain (HelmInstall "echo-server-dev" "." "values-dev.yaml" "dev" true)] /\
  commands (events (deploy_release Sim.exec "dev" "values-dev.yaml" "dev"
                      (Sim.set_current Sim.dev_released "kind-nur-dev"))) =
  [release_probe "dev" "dev";
   Plain (HelmUpgrade "echo-server-dev" "." "values-dev.yaml" "dev" true)].
Proof.
  split.
  - apply (proj1 (proj2 (proj2 (@deploy_release_probe_then_request _ Sim.exec "dev"
             "values-dev.yaml" "dev" sim_dev_empty eq_refl)))).
    reflexivity.
  - apply (proj1 (proj2 (@deploy_release_probe_then_request _ Sim.exec "dev"
             "values-dev.yaml" "dev" (Sim.set_current Sim.dev_released "kind-nur-dev")
             eq_refl))).
    reflexivity.
Defined.

(** C7 fails on the script, both ways.  Where only echo-server-dev-canary
    is installed, echo-server-dev does not exist and yet an upgrade is sent;
    where echo-server-dev is installed but [helm list] fails and prints
    nothing, an install is sent. *)
Lemma deploy_release_misjudges_existence :
  (Sim.has_release sim_canary "dev" "echo-server-dev" = false /\
   commands (events (deploy_release Sim.exec "dev" "values-dev.yaml" "dev" sim_canary)) =
   [release_probe "dev" "dev";
    Plain (HelmUpgrade "echo-server-dev" "." "values-dev.yaml" "dev" true)]) /\
  (Sim.has_release sim_lost_context "dev" "echo-server-dev" = true /\
   commands (events (deploy_release Sim.exec "dev" "values-dev.yaml" "dev" sim_lost_context)) =
   [release_probe "dev" "dev";
    Plain (HelmInstall "echo-server-dev" "." "values-dev.yaml" "dev" true)]).
Proof. vm_compute. repeat split. Qed.

(** ** The order of the steps of a deployment *)

Lemma ascending_sorted l : ascending l = true -> StronglySorted le l.
Proof.
  induction l as [|a l IH]; cbn; intros H; constructor.
  - apply IH. now apply andb_true_iff in H as [_ H].
  - apply andb_true_iff in H as [H _].
    rewrite forallb_forall in H. apply Forall_forall.
    intros x Hx. now apply Nat.leb_le, H.
Qed.

Section DeployOrder.

Variable World : Type.
Variable exec : Simple -> World -> Reply World.

Lemma deploy_environment_ascending ENV CLUSTER_NAME VALUES_FILE NAMESPACE w :
  ascending (map phase_rank
    (phases (events (deploy_environment exec ENV CLUSTER_NAME VALUES_FILE NAMESPACE w)))) = true.
Proof.
  unfold deploy_environment, deploy_cluster, deploy_context, deploy_namespace,
    deploy_release, deploy_display, cluster_exists, release_probe.
  sh_exec; reflexivity.
Qed.

Lemma deploy_environment_steps ENV CLUSTER_NAME VALUES_FILE NAMESPACE w :
  outcome (deploy_environment exec ENV CLUSTER_NAME VALUES_FILE NAMESPACE w) = Ret tt ->
  steps (events (deploy_environment exec ENV CLUSTER_NAME VALUES_FILE NAMESPACE w)) =
  deploy_plan CLUSTER_NAME NAMESPACE.
Proof.
  unfold deploy_environment, deploy_cluster, deploy_context, deploy_namespace,
    deploy_release, deploy_display, cluster_exists, release_probe, deploy_plan.
  sh_exec; intros H; try discriminate H;
    unfold steps, step_eqb; repeat (cbn; rewrite ?String.eqb_refl); reflexivity.
Qed.

(** The commands of a run are the first commands of [deployment_commands],
    for the answers that the three probes gave in that run; all of them when
    the run reaches its end, and then none has failed. *)
Lemma deploy_environment_commands ENV CLUSTER_NAME VALUES_FILE NAMESPACE w :
  let r := deploy_environment exec ENV CLUSTER_NAME VALUES_FILE NAMESPACE w in
  let w1 := world (deploy_cluster exec CLUSTER_NAME w) in
  let w2 := world (deploy_context exec CLUSTER_NAME w1) in
  let w3 := world (deploy_namespace exec NAMESPACE w2) in
  let expected :=
    deployment_commands ENV CLUSTER_NAME VALUES_FILE NAMESPACE
      (Nat.eqb (fst (cmd_reply exec (PipeGrep KindGetClusters true (Pat true CLUSTER_NAME)) w)) 0)
      (Nat.eqb (fst (cmd_reply exec (Plain (KubectlGetNamespace NAMESPACE)) w2)) 0)
      (Nat.eqb (fst (cmd_reply exec (release_probe ENV NAMESPACE) w3)) 0) in
  (exists rest, commands (events r) ++ rest = expected) /\
  (outcome r = Ret tt ->
   commands (events r) = expected /\ existsb failed_step (events r) = false).
Proof.
  cbn zeta.
  unfold deploy_environment, deploy_cluster, deploy_context, deploy_namespace,
    deploy_release, deploy_display, cluster_exists, release_probe, deployment_commands.
  sh_exec.
  all: try match goal with
           | H : negb true = true |- _ => discriminate H
           | H : negb false = false |- _ => discriminate H
           end.
  all: (split; [eexists; cbn; reflexivity | intros H; try discriminate H]).
  all: split; [reflexivity|].
  all: cbn; repeat match goal with
         | H : Nat.eqb _ 0 = _ |- _ => rewrite ?H; clear H
         end; reflexivity.
Qed.


End DeployOrder.


(** ** Ensuring the cluster, twice *)

Lemma grep_anchored_found name lines :
  grep_status (Pat true name) lines = 0 <-> In name lines.
Proof.
  unfold grep_status.
  destruct (existsb (line_matches (Pat true name)) lines) eqn:E.
  - split; [intros _|reflexivity].
    apply existsb_exists in E as (x & Hx & Hm).
    unfold line_matches in Hm. cbn in Hm.
    apply String.eqb_eq in Hm. now subst.
  - split; [discriminate|]. intros H. exfalso.
    assert (existsb (line_matches (Pat true name)) lines = true) as E'.
    { apply existsb_exists. exists name. split; [assumption|].
      unfold line_matches. cbn. apply String.eqb_refl. }
    congruence.
Qed.

Section ClusterEnsure.

Variable World : Type.
Variable exec : Simple -> World -> Reply World.

(** What the script expects of [kind]: a cluster whose creation succeeded is
    listed afterwards, and listing the clusters does not change the list. *)
Hypothesis created_is_listed : forall name w,
  status (exec (KindCreateCluster name) w) = 0 ->
  In name (stdout (exec KindGetClusters (next (exec (KindCreateCluster name) w)))).

Hypothesis listing_is_stable : forall w,
  stdout (exec KindGetClusters (next (exec KindGetClusters w))) =
  stdout (exec KindGetClusters w).

(** The existence check short-circuits the creation. *)
Lemma deploy_cluster_present name w :
  In name (stdout (exec KindGetClusters w)) ->
  outcome (deploy_cluster exec name w) = Ret tt /\
  commands (events (deploy_cluster exec name w)) =
  [PipeGrep KindGetClusters true (Pat true name)].
Proof.
  intros H. apply grep_anchored_found in H.
  unfold deploy_cluster, cluster_exists. sh_unfold. cbn.
  rewrite H. cbn. split; reflexivity.
Qed.

Lemma deploy_cluster_listed name w :
  outcome (deploy_cluster exec name w) = Ret tt ->
  In name (stdout (exec KindGetClusters (world (deploy_cluster exec name w)))).
Proof.
  unfold deploy_cluster, cluster_exists. sh_unfold. cbn.
  destruct (grep_status (Pat true name) (stdout (exec KindGetClusters w))) eqn:G; cbn.
  - intros _. rewrite listing_is_stable. now apply grep_anchored_found.
  - destruct (status (exec (KindCreateCluster name) (next (exec KindGetClusters w))))
      eqn:S; cbn; [intros _|discriminate].
    now apply created_is_listed.
Qed.

(** C3.  Ensuring a cluster twice in sequence, for a cluster name that
    [grep] reads letter for letter: when the first pass of the cluster block
    of [deploy_environment] succeeded, the second pass succeeds too, and the
    only command it runs is the existence probe: no second [kind create
    cluster] is issued. *)
Theorem deploy_cluster_twice name w :
  bre_literal name = true ->
  outcome (deploy_cluster exec name w) = Ret tt ->
  let w1 := world (deploy_cluster exec name w) in
  outcome (deploy_cluster exec name w1) = Ret tt /\
  commands (events (deploy_cluster exec name w1)) =
  [PipeGrep KindGetClusters true (Pat true name)].
Proof.
  intros _ H w1. apply deploy_cluster_present. now apply deploy_cluster_listed.
Qed.

End ClusterEnsure.

Lemma sim_created_is_listed name m :
  status (Sim.exec (KindCreateCluster name) m) = 0 ->
  In name (stdout (Sim.exec KindGetClusters
                     (next (Sim.exec (KindCreateCluster name) m)))).
Proof.
  cbn. destruct (Sim.docker_up m && negb (Sim.mem name (Sim.clusters m)))%bool;
    cbn; [intros _|discriminate].
  apply in_or_app. right. now left.
Qed.

Lemma sim_listing_is_stable m :
  stdout (Sim.exec KindGetClusters (next (Sim.exec KindGetClusters m))) =
  stdout (Sim.exec KindGetClusters m).
Proof. reflexivity. Qed.

(** The cluster nur-dev is ensured twice on a fresh workstation: the first
    pass creates it, the second only probes. *)
Lemma deploy_cluster_twice_witness :
  let r1 := deploy_cluster Sim.exec "nur-dev" Sim.fresh in
  let r2 := deploy_cluster Sim.exec "nur-dev" (world r1) in
  In (Plain (KindCreateCluster "nur-dev")) (commands (events r1)) /\
  outcome r2 = Ret tt /\
  commands (events r2) = [PipeGrep KindGetClusters true (Pat true "nur-dev")].
Proof.
  split; [cbn; auto|].
  apply (@deploy_cluster_twice _ Sim.exec sim_created_is_listed sim_listing_is_stable
           "nur-dev" Sim.fresh); reflexivity.
Defined.

(** ** The prerequisite checks *)

Arguments dispatch : simpl never.

Section Prerequisites.

Variable World : Type.
Variable exec : Simple -> World -> Reply World.
Variable on_path : World -> string -> bool.

(** With the three tools on the PATH, [main] is its checks followed by the
    dispatch on the option. *)
Lemma main_ready args w :
  tools_present on_path w = true ->
  main exec on_path args w =
  mkResult (outcome (dispatch exec args w)) (world (dispatch exec args w))
           (tool_checks ++ events (dispatch exec args w)).
Proof.
  unfold tools_present, main, require_tool, command_v. intros H.
  sh_unfold. cbn.
  destruct (on_path w "helm"); [cbn|discriminate H].
  destruct (on_path w "kind"); [cbn|discriminate H].
  destruct (on_path w "kubectl"); [cbn|discriminate H].
  destruct (dispatch exec args w) as [[[]|n] w1 l1]; reflexivity.
Qed.

(** With a tool missing, [main] prints one error and exits 1. *)
Lemma main_not_ready args w :
  tools_present on_path w = false ->
  exists checks msg,
    main exec on_path args w = mkResult (Exit 1) w (checks ++ [Say Error msg]) /\
    commands checks = [] /\ ~ In Usage checks.
Proof.
  unfold tools_present, main, require_tool, command_v. intros H.
  sh_unfold. cbn.
  destruct (on_path w "helm"); cbn.
  - destruct (on_path w "kind"); cbn.
    + destruct (on_path w "kubectl"); [discriminate H|]. cbn.
      eexists [_; _; _], _. split; [reflexivity|]. split; [reflexivity|].
      cbn. intuition discriminate.
    + eexists [_; _], _. split; [reflexivity|]. split; [reflexivity|].
      cbn. intuition discriminate.
  - eexists [_], _. split; [reflexivity|]. split; [reflexivity|].
    cbn. intuition discriminate.
Qed.

(** C10.  Whatever the option, [help] and [status] included, the three
    prerequisite checks run before the dispatch: when helm, kind or kubectl
    is not on the PATH the script exits with status 1, and it has run no
    command, printed no usage text and changed nothing. *)
Theorem main_checks_tools_first args w :
  tools_present on_path w = false ->
  exit_status (main exec on_path args w) = 1 /\
  world (main exec on_path args w) = w /\
  commands (events (main exec on_path args w)) = [] /\
  ~ In Usage (events (main exec on_path args w)).
Proof.
  intros H. destruct (main_not_ready args w H) as (checks & msg & -> & Hc & Hu).
  unfold exit_status. cbn. repeat split.
  - rewrite commands_app, Hc. reflexivity.
  - rewrite in_app_iff. cbn. intuition discriminate.
Qed.

End Prerequisites.

(** The script is asked for help on a workstation without helm. *)
Lemma main_checks_tools_first_witness :
  tools_present Sim.on_path Sim.no_helm = false /\
  exit_status (Sim.run_main ["help"] Sim.no_helm) = 1.
Proof.
  split; [reflexivity|].
  apply (main_checks_tools_first Sim.exec Sim.on_path ["help"] Sim.no_helm).
  reflexivity.
Defined.

(** ** Status and clean *)

Section StatusAndClean.

Variable World : Type.
Variable exec : Simple -> World -> Reply World.

(** X22.  [clean_deployments] asks helm to uninstall the release of an
    environment only after its release probe, [helm list -n ENV | grep -q
    "echo-server-ENV"], has succeeded.  When the probe finds no line, no
    [helm uninstall] is run for that environment (so none can fail) and the
    warning "No release found in ENV" is printed; the clean operation never
    prints an error line. *)
Theorem clean_absent_release_skipped w :
  let log := events (clean_deployments exec w) in
  (forall ENV s,
     In (Run (Plain (HelmUninstall ("echo-server-" ++ ENV) ENV)) s) log ->
     In (Test (release_probe ENV ENV) 0) log) /\
  (forall ENV st,
     In (Test (release_probe ENV ENV) st) log ->
     st <> 0 ->
     (forall s, ~ In (Run (Plain (HelmUninstall ("echo-server-" ++ ENV) ENV)) s) log) /\
     In (Say Warning ("No release found in " ++ ENV)) log) /\
  existsb is_error log = false.
Proof.
  cbn zeta. sh_paths (clean_deployments exec w).
  unfold clean_deployments, for_in, clean_env, cluster_exists, release_probe.
  sh_exec; sh_done; (split; [|split; [|reflexivity]]).
  all: try (intros ENV s Hin; in_cases Hin; inversion Hin; subst;
            zero_status; rewrite_zero; cbn; tauto).
  all: intros ENV st Hin Hst; in_cases Hin; inversion Hin; subst;
    zero_status; try congruence;
    (split; [intros s Hs; in_cases Hs | cbn; tauto]).
Qed.


(** C5, as the script has it.  [show_status] creates nothing and installs,
    upgrades or uninstalls nothing; but for every environment whose cluster
    it finds, it does switch the kubectl context to that cluster. *)
Theorem show_status_reads_and_switches w :
  let log := events (show_status exec w) in
  forallb (fun c => negb (is_create (simple_of c) || is_release_change (simple_of c)))
          (commands log) = true /\
  (forall ENV,
     In (Test (PipeGrep KindGetClusters true (Pat true ("nur-" ++ ENV))) 0) log ->
     exists s, In (Run (Plain (KubectlUseContext ("kind-nur-" ++ ENV))) s) log).
Proof.
  cbn zeta. sh_paths (show_status exec w).
  unfold show_status, for_in, status_env, cluster_exists, release_probe.
  sh_exec; sh_done; (split; [reflexivity|]); intros ENV Hin; in_cases Hin;
    inversion Hin; subst;
    try match goal with
        | H : ?x = 0, H' : Nat.eqb ?x 0 = false |- _ =>
            rewrite H in H'; discriminate H'
        end;
    eexists; cbn; eauto 20.
Qed.

End StatusAndClean.

(** Teardown on a workstation whose dev cluster has no release. *)
Lemma clean_absent_release_skipped_witness :
  let log := events (clean_deployments Sim.exec Sim.dev_only) in
  (forall s, ~ In (Run (Plain (HelmUninstall "echo-server-dev" "dev")) s) log) /\
  In (Say Warning "No release found in dev") log /\
  existsb is_error log = false.
Proof.
  destruct (proj1 (proj2 (clean_absent_release_skipped Sim.exec Sim.dev_only)) "dev" 1)
    as [A B].
  - cbn. tauto.
  - discriminate.
  - split; [exact A|]. split; [exact B|reflexivity].
Defined.

(** C4 does not hold of the script.  Where the namespace dev holds
    echo-server-dev-canary and no echo-server-dev, the row of the canary
    satisfies the unanchored probe of line 159: [helm uninstall
    echo-server-dev] is sent, fails, and [set -e] ends the clean operation
    with status 1.  The script means the existence of the release (its
    comment "Check if Helm release exists", its warning "No release found
    in ENV"), it anchors its cluster probe, and its PowerShell port compares
    release names for equality ([Test-HelmReleaseExists]): the probe is a
    slip of the script. *)
Lemma clean_uninstalls_absent_release :
  let r := clean_deployments Sim.exec sim_canary in
  Sim.has_release sim_canary "dev" "echo-server-dev" = false /\
  In (Run (Plain (HelmUninstall "echo-server-dev" "dev")) 1) (events r) /\
  outcome r = Exit 1.
Proof. vm_compute. repeat split; tauto. Qed.



(** Status on a workstation whose dev cluster exists. *)
Lemma show_status_reads_and_switches_witness :
  exists s,
    In (Run (Plain (KubectlUseContext "kind-nur-dev")) s)
       (events (show_status Sim.exec Sim.dev_only)).
Proof.
  apply (show_status_reads_and_switches Sim.exec Sim.dev_only).
  cbn. tauto.
Defined.

(** C5 fails on the script: on a workstation whose kubectl points at
    docker-desktop and whose dev cluster exists, [show_status] runs
    [kubectl config use-context kind-nur-dev], and the current context is
    kind-nur-dev when it returns. *)
Lemma show_status_changes_context :
  let r := show_status Sim.exec Sim.dev_only in
  In (Run (Plain (KubectlUseContext "kind-nur-dev")) 0) (events r) /\
  existsb (fun c => is_context_switch (simple_of c)) (commands (events r)) = true /\
  Sim.current Sim.dev_only = "docker-desktop" /\
  Sim.current (world r) = "kind-nur-dev" /\
  world r <> Sim.dev_only.
Proof.
  cbn. repeat split; try tauto. discriminate.
Qed.

(** ** Deploying to both environments *)

Arguments deploy_environment : simpl never.

Section DeployAll.

Variable World : Type.
Variable exec : Simple -> World -> Reply World.
Variable on_path : World -> string -> bool.

Lemma deploy_dev_leaves_prd_alone w :
  forallb (fun c => negb (addressed_to "prd" c))
    (commands (events (deploy_environment exec "dev" "nur-dev" "values-dev.yaml" "dev" w)))
  = true.
Proof.
  unfold deploy_environment, deploy_cluster, deploy_context, deploy_namespace,
    deploy_release, deploy_display, cluster_exists, release_probe.
  sh_exec; reflexivity.
Qed.

(** C1, as the script has it.  Under [set -e] a failed step of dev ends
    [deploy all] on the spot: the run is the run of [deploy dev], with the
    same log, final world and exit status, and no command is addressed to
    prd.  The steps of prd are run when, and only when, the deployment of
    dev reached its end. *)
Theorem deploy_all_stops_at_dev_failure w :
  let dev := main exec on_path ["dev"] w in
  let all := main exec on_path ["all"] w in
  (forall n, outcome dev = Exit n ->
     all = dev /\
     forallb (fun c => negb (addressed_to "prd" c)) (commands (events all)) = true) /\
  (outcome dev = Ret tt ->
     events all =
     events dev
     ++ [Echo ""; Say Info "=========================================="; Echo ""]
     ++ events (deploy_environment exec "prd" "nur-prd" "values-prd.yaml" "prd" (world dev))).
Proof.
  cbn zeta.
  destruct (tools_present on_path w) eqn:T.
  - rewrite !(main_ready exec on_path _ w T).
    unfold dispatch. cbn [first_arg String.eqb Ascii.eqb Bool.eqb].
    pose proof (deploy_dev_leaves_prd_alone w) as P.
    sh_unfold. cbn.
    destruct (deploy_environment exec "dev" "nur-dev" "values-dev.yaml" "dev" w)
      as [[[]|k] w1 l1]; cbn [outcome world events] in *.
    + split; [discriminate|]. intros _.
      destruct (deploy_environment exec "prd" "nur-prd" "values-prd.yaml" "prd" w1)
        as [o2 w2 l2]. reflexivity.
    + split; [|discriminate]. intros n _. split; [reflexivity|].
      cbn. exact P.
  - destruct (main_not_ready exec on_path ["dev"] w T) as (c1 & m1 & E1 & _).
    rewrite E1. cbn. split; [|discriminate].
    intros n _. revert E1.
    unfold main, require_tool, command_v, tools_present in *. sh_unfold. cbn.
    destruct (on_path w "helm"); cbn;
      [destruct (on_path w "kind"); cbn;
       [destruct (on_path w "kubectl"); cbn; [discriminate T|]|]|];
      intros E1; rewrite <- E1; split; reflexivity.
Qed.

End DeployAll.

(** Deploying dev fails where no cluster can be created. *)
Lemma deploy_all_stops_at_dev_failure_witness :
  outcome (Sim.run_main ["dev"] Sim.prd_only_no_docker) = Exit 1 /\
  Sim.run_main ["all"] Sim.prd_only_no_docker =
  Sim.run_main ["dev"] Sim.prd_only_no_docker /\
  forallb (fun c => negb (addressed_to "prd" c))
    (commands (events (Sim.run_main ["all"] Sim.prd_only_no_docker))) = true.
Proof.
  split; [reflexivity|].
  apply (proj1 (deploy_all_stops_at_dev_failure Sim.exec Sim.on_path
                  Sim.prd_only_no_docker) 1).
  reflexivity.
Defined.

(** C1 fails on the script: where the dev cluster cannot be created but the
    prd cluster is there, deploying prd alone succeeds, yet [deploy all]
    stops at the failed step of dev and runs no step of prd. *)
Lemma deploy_all_failure_prevents_prd :
  let all := Sim.run_main ["all"] Sim.prd_only_no_docker in
  outcome (Sim.run_main ["prd"] Sim.prd_only_no_docker) = Ret tt /\
  In (Run (Plain (KindCreateCluster "nur-dev")) 1) (events all) /\
  exit_status all = 1 /\
  existsb (addressed_to "prd") (commands (events all)) = false.
Proof. vm_compute. repeat split; tauto. Qed.

(** ** The exit status *)

Lemma find_app_first {A} (f : A -> bool) l1 l2 :
  find f (l1 ++ l2) =
  match find f l1 with
  | Some x => Some x
  | None => find f l2
  end.
Proof.
  induction l1 as [|a l1 IH]; cbn; [reflexivity|].
  destruct (f a); [reflexivity|exact IH].
Qed.

Section ExitStatus.

Variable World : Type.
Variable exec : Simple -> World -> Reply World.
Variable on_path : World -> string -> bool.

Lemma errexit_bind A B (m : Sh World A) (f : A -> Sh World B) :
  obeys_errexit m -> (forall a, obeys_errexit (f a)) -> obeys_errexit (bind m f).
Proof.
  intros Hm Hf w. specialize (Hm w). unfold errexit, bind in *.
  destruct (m w) as [[a|n] w1 l1]; cbn in *.
  - specialize (Hf a w1). unfold errexit in Hf.
    destruct (f a w1) as [o2 w2 l2]; cbn in *.
    rewrite find_app_first.
    destruct (find failed_step l1) as [[]|]; try contradiction.
    + discriminate Hm.
    + exact Hf.
  - destruct (find failed_step l1) as [[]|]; try contradiction.
    + injection Hm as ->. reflexivity.
    + destruct Hm as [a Ha]. discriminate Ha.
Qed.

Lemma errexit_run c : obeys_errexit (run exec c).
Proof.
  intros w. unfold errexit, run.
  destruct (cmd_reply exec c w) as [st w1]. cbn.
  destruct (Nat.eqb st 0); cbn; [now exists tt|reflexivity].
Qed.

Lemma errexit_test c : obeys_errexit (test exec c).
Proof.
  intros w. unfold errexit, test.
  destruct (cmd_reply exec c w) as [st w1]. cbn. eauto.
Qed.

Lemma errexit_silent e :
  failed_step e = false -> obeys_errexit (World:=World) (emit e).
Proof. intros H w. unfold errexit, emit. cbn. rewrite H. now exists tt. Qed.

Lemma errexit_ret A (a : A) : obeys_errexit (World:=World) (ret a).
Proof. intros w. unfold errexit, ret. cbn. eauto. Qed.

Lemma errexit_for_in l body :
  (forall x, obeys_errexit (body x)) -> obeys_errexit (World:=World) (for_in l body).
Proof.
  intros H. induction l as [|x l IH]; cbn.
  - apply errexit_ret.
  - apply errexit_bind; [apply H|intros _; exact IH].
Qed.

Ltac errexit_step :=
  first [ apply errexit_bind; [|intros ?]
        | apply errexit_run
        | apply errexit_test
        | apply errexit_ret
        | apply errexit_silent; reflexivity
        | apply errexit_for_in; intros ?
        | match goal with
          | |- obeys_errexit (if negb ?b then _ else _) => destruct b; cbn [negb]
          | |- obeys_errexit (if ?b then _ else _) => destruct b
          end ].

Lemma errexit_deploy_environment ENV CLUSTER_NAME VALUES_FILE NAMESPACE :
  obeys_errexit (deploy_environment exec ENV CLUSTER_NAME VALUES_FILE NAMESPACE).
Proof.
  unfold deploy_environment, deploy_cluster, deploy_context, deploy_namespace,
    deploy_release, deploy_display, cluster_exists,
    print_info, print_error, print_warning, say, echo.
  repeat errexit_step.
Qed.

Lemma errexit_show_status : obeys_errexit (show_status exec).
Proof.
  unfold show_status, status_env, cluster_exists,
    print_info, print_error, print_warning, say, echo.
  repeat errexit_step.
Qed.

Lemma errexit_clean_deployments : obeys_errexit (clean_deployments exec).
Proof.
  unfold clean_deployments, clean_env, cluster_exists,
    print_info, print_error, print_warning, say, echo.
  repeat errexit_step.
Qed.

Lemma errexit_dispatch args :
  known_option args = true -> obeys_errexit (dispatch exec args).
Proof.
  unfold known_option, dispatch. cbn.
  destruct (String.eqb (first_arg args) "dev"); [intros _; apply errexit_deploy_environment|].
  destruct (String.eqb (first_arg args) "prd"); [intros _; apply errexit_deploy_environment|].
  destruct (String.eqb (first_arg args) "all").
  { intros _. unfold print_info, say, echo.
    repeat first [apply errexit_deploy_environment | errexit_step]. }
  destruct (String.eqb (first_arg args) "status"); [intros _; apply errexit_show_status|].
  destruct (String.eqb (first_arg args) "clean"); [intros _; apply errexit_clean_deployments|].
  destruct (String.eqb (first_arg args) "help"),
    (String.eqb (first_arg args) "--help"), (String.eqb (first_arg args) "-h");
    cbn; intros H; try discriminate H;
    unfold show_usage; apply errexit_silent; reflexivity.
Qed.

Lemma dispatch_unknown args w :
  known_option args = false -> outcome (dispatch exec args w) = Exit 1.
Proof.
  unfold known_option, dispatch. cbn.
  destruct (String.eqb (first_arg args) "dev"); [discriminate|].
  destruct (String.eqb (first_arg args) "prd"); [discriminate|].
  destruct (String.eqb (first_arg args) "all"); [discriminate|].
  destruct (String.eqb (first_arg args) "status"); [discriminate|].
  destruct (String.eqb (first_arg args) "clean"); [discriminate|].
  destruct (String.eqb (first_arg args) "help"),
    (String.eqb (first_arg args) "--help"), (String.eqb (first_arg args) "-h");
    cbn; intros H; try discriminate H; reflexivity.
Qed.

(** C8, as the script has it.  A missing helm, kind or kubectl is detected
    before anything else and gives exit status 1 (not 2), with no command
    run; so does an unknown option.  Otherwise the exit status is 0 when no
    step failed, and the status of the first failed step, whatever non-zero
    value that is, when one did. *)
Theorem main_exit_status args w :
  let r := main exec on_path args w in
  (tools_present on_path w = false ->
     exit_status r = 1 /\ commands (events r) = []) /\
  (tools_present on_path w = true -> known_option args = false ->
     exit_status r = 1) /\
  (tools_present on_path w = true -> known_option args = true ->
     match find failed_step (events r) with
     | Some (Run _ n) => exit_status r = n /\ n <> 0
     | _ => exit_status r = 0
     end).
Proof.
  cbn zeta. split; [|split].
  - intros T. destruct (main_not_ready exec on_path args w T) as (cs & msg & -> & Hc & _).
    unfold exit_status. cbn. rewrite commands_app, Hc. split; reflexivity.
  - intros T K. rewrite (main_ready exec on_path args w T).
    unfold exit_status. cbn. now rewrite (dispatch_unknown args w K).
  - intros T K. rewrite (main_ready exec on_path args w T).
    pose proof (errexit_dispatch args K w) as E. unfold errexit in E.
    unfold exit_status. cbn.
    destruct (find failed_step (events (dispatch exec args w))) as [[]|] eqn:F;
      try contradiction.
    + rewrite E. split; [reflexivity|].
      apply find_some in F as [_ F]. cbn in F.
      intros ->. discriminate F.
    + destruct E as [a ->]. reflexivity.
Qed.

End ExitStatus.

(** Status is asked for on a workstation without helm; then a deployment
    fails where no cluster can be created. *)
Lemma main_exit_status_witness :
  exit_status (Sim.run_main ["status"] Sim.no_helm) = 1 /\
  exit_status (Sim.run_main ["dev"] Sim.no_docker) = 1 /\
  exit_status (Sim.run_main ["all"] Sim.fresh) = 0.
Proof.
  split; [|split].
  - exact (proj1 (proj1 (main_exit_status Sim.exec Sim.on_path ["status"] Sim.no_helm)
                    eq_refl)).
  - exact (proj1 (proj2 (proj2 (main_exit_status Sim.exec Sim.on_path ["dev"] Sim.no_docker))
                    eq_refl eq_refl)).
  - exact (proj2 (proj2 (main_exit_status Sim.exec Sim.on_path ["all"] Sim.fresh))
             eq_refl eq_refl).
Defined.

(** C8 fails on the script: without helm on the PATH the exit status is 1,
    not 2. *)
Lemma missing_tool_exit_status_is_not_2 :
  tools_present Sim.on_path Sim.no_helm = false /\
  exit_status (Sim.run_main ["status"] Sim.no_helm) = 1 /\
  exit_status (Sim.run_main ["status"] Sim.no_helm) <> 2.
Proof. repeat split. discriminate. Qed.

(** ** The steps of a deployment *)

Lemma step_eqb_eq a b : step_eqb a b = true <-> a = b.
Proof.
  destruct a as [p s], b as [q t]. unfold step_eqb. cbn.
  rewrite andb_true_iff, Nat.eqb_eq, String.eqb_eq. split.
  - intros [Hp ->]. f_equal. destruct p, q; cbn in Hp; congruence.
  - intros [= -> ->]. split; reflexivity.
Qed.

Lemma forallb_existsb_In (plan : list Step) l :
  forallb (fun c => existsb (step_eqb (step_of c)) plan) l = true ->
  forall s, In s (map step_of l) -> In s plan.
Proof.
  rewrite forallb_forall. intros H s Hs.
  apply in_map_iff in Hs as (c & <- & Hc).
  specialize (H c Hc). apply existsb_exists in H as (x & Hx & E).
  apply step_eqb_eq in E. now rewrite E.
Qed.

Section DeploySteps.

Variable World : Type.
Variable exec : Simple -> World -> Reply World.

Lemma deploy_environment_within ENV CLUSTER_NAME VALUES_FILE NAMESPACE w :
  forallb (fun c => existsb (step_eqb (step_of c)) (deploy_plan CLUSTER_NAME NAMESPACE))
    (commands (events (deploy_environment exec ENV CLUSTER_NAME VALUES_FILE NAMESPACE w)))
  = true.
Proof.
  remember (deploy_plan CLUSTER_NAME NAMESPACE) as todo eqn:E.
  unfold deploy_environment, deploy_cluster, deploy_context, deploy_namespace,
    deploy_release, deploy_display, cluster_exists, release_probe.
  sh_exec; subst todo;
    unfold step_eqb; repeat (cbn; rewrite ?String.eqb_refl); reflexivity.
Qed.

End DeploySteps.

(** ** Same answers, same run *)

Section SameAnswers.

Variables World1 World2 : Type.
Variable exec1 : Simple -> World1 -> Reply World1.
Variable exec2 : Simple -> World2 -> Reply World2.
Variable on_path1 : World1 -> string -> bool.
Variable on_path2 : World2 -> string -> bool.

(** Worlds in which the two collaborators answer alike. *)
Variable R : World1 -> World2 -> Prop.

Hypothesis same_answers : forall c w1 w2, R w1 w2 ->
  fst (cmd_reply exec1 c w1) = fst (cmd_reply exec2 c w2) /\
  R (snd (cmd_reply exec1 c w1)) (snd (cmd_reply exec2 c w2)).

Hypothesis same_tools : forall t w1 w2, R w1 w2 ->
  In t ["helm"; "kind"; "kubectl"] -> on_path1 w1 t = on_path2 w2 t.

Lemma alike_bind A B (m1 : Sh World1 A) (m2 : Sh World2 A)
    (f1 : A -> Sh World1 B) (f2 : A -> Sh World2 B) :
  alike R m1 m2 -> (forall a, alike R (f1 a) (f2 a)) ->
  alike R (bind m1 f1) (bind m2 f2).
Proof.
  intros Hm Hf w1 w2 H. destruct (Hm w1 w2 H) as (Ho & He & Hw).
  unfold bind.
  destruct (m1 w1) as [o1 v1 l1], (m2 w2) as [o2 v2 l2]. cbn in *. subst o2 l2.
  destruct o1 as [a|n]; cbn; [|now repeat split].
  destruct (Hf a v1 v2 Hw) as (Ho' & He' & Hw').
  destruct (f1 a v1) as [o1' v1' l1'], (f2 a v2) as [o2' v2' l2']. cbn in *.
  subst. now repeat split.
Qed.

Lemma alike_run c : alike R (run exec1 c) (run exec2 c).
Proof.
  intros w1 w2 H. destruct (same_answers c H) as [Hs Hw]. unfold run.
  destruct (cmd_reply exec1 c w1) as [s1 v1], (cmd_reply exec2 c w2) as [s2 v2].
  cbn in *. subst. now repeat split.
Qed.

Lemma alike_test c : alike R (test exec1 c) (test exec2 c).
Proof.
  intros w1 w2 H. destruct (same_answers c H) as [Hs Hw]. unfold test.
  destruct (cmd_reply exec1 c w1) as [s1 v1], (cmd_reply exec2 c w2) as [s2 v2].
  cbn in *. subst. now repeat split.
Qed.

Lemma alike_emit e : alike R (emit e) (emit e).
Proof. intros w1 w2 H. now repeat split. Qed.

Lemma alike_ret A (a : A) : alike R (ret a) (ret a).
Proof. intros w1 w2 H. now repeat split. Qed.

Lemma alike_exit A n : alike R (exit (A:=A) n) (exit n).
Proof. intros w1 w2 H. now repeat split. Qed.

Lemma alike_for_in l (body1 : string -> Sh World1 unit) (body2 : string -> Sh World2 unit) :
  (forall x, alike R (body1 x) (body2 x)) -> alike R (for_in l body1) (for_in l body2).
Proof.
  intros H. induction l as [|x l IH]; cbn.
  - apply alike_ret.
  - apply alike_bind; [apply H|intros _; exact IH].
Qed.

Lemma alike_require_tool t msg :
  In t ["helm"; "kind"; "kubectl"] ->
  alike R (require_tool on_path1 t msg) (require_tool on_path2 t msg).
Proof.
  intros Ht. unfold require_tool. apply alike_bind.
  - intros w1 w2 H. unfold command_v. cbn. rewrite (same_tools H Ht). now repeat split.
  - intros []; cbn [negb].
    + apply alike_ret.
    + apply alike_bind; [apply alike_emit|intros _; apply alike_exit].
Qed.

Ltac alike_step :=
  first [ apply alike_bind; [|intros ?]
        | apply alike_run
        | apply alike_test
        | apply alike_ret
        | apply alike_exit
        | apply alike_emit
        | apply alike_for_in; intros ?
        | match goal with
          | |- alike _ (if negb ?b then _ else _) _ => destruct b; cbn [negb]
          | |- alike _ (if ?b then _ else _) _ => destruct b
          end ].

Lemma alike_deploy_environment ENV CLUSTER_NAME VALUES_FILE NAMESPACE :
  alike R (deploy_environment exec1 ENV CLUSTER_NAME VALUES_FILE NAMESPACE)
          (deploy_environment exec2 ENV CLUSTER_NAME VALUES_FILE NAMESPACE).
Proof.
  unfold deploy_environment, deploy_cluster, deploy_context, deploy_namespace,
    deploy_release, deploy_display, cluster_exists,
    print_info, print_error, print_warning, say, echo.
  repeat alike_step.
Qed.

Lemma alike_show_status : alike R (show_status exec1) (show_status exec2).
Proof.
  unfold show_status, status_env, cluster_exists,
    print_info, print_error, print_warning, say, echo.
  repeat alike_step.
Qed.

Lemma alike_clean_deployments : alike R (clean_deployments exec1) (clean_deployments exec2).
Proof.
  unfold clean_deployments, clean_env, cluster_exists,
    print_info, print_error, print_warning, say, echo.
  repeat alike_step.
Qed.

Lemma alike_dispatch args : alike R (dispatch exec1 args) (dispatch exec2 args).
Proof.
  unfold dispatch, show_usage, print_info, print_error, say, echo. cbn zeta.
  repeat first [apply alike_deploy_environment | apply alike_show_status
               | apply alike_clean_deployments | alike_step].
Qed.


End SameAnswers.

Lemma sim_same_answers c m1 m2 :
  sim_alike m1 m2 ->
  fst (cmd_reply Sim.exec c m1) = fst (cmd_reply Sim.exec c m2) /\
  sim_alike (snd (cmd_reply Sim.exec c m1)) (snd (cmd_reply Sim.exec c m2)).
Proof.
  destruct m1 as [p1 d1 c1 x1 n1 r1], m2 as [p2 d2 c2 x2 n2 r2].
  unfold sim_alike. cbn. intros (-> & -> & -> & -> & -> & P).
  assert (forall s,
    status (Sim.exec s (Sim.mkMachine p1 d2 c2 x2 n2 r2)) =
    status (Sim.exec s (Sim.mkMachine p2 d2 c2 x2 n2 r2)) /\
    stdout (Sim.exec s (Sim.mkMachine p1 d2 c2 x2 n2 r2)) =
    stdout (Sim.exec s (Sim.mkMachine p2 d2 c2 x2 n2 r2)) /\
    sim_alike (next (Sim.exec s (Sim.mkMachine p1 d2 c2 x2 n2 r2)))
              (next (Sim.exec s (Sim.mkMachine p2 d2 c2 x2 n2 r2)))) as E.
  { intros s. unfold sim_alike.
    destruct s; cbn;
      unfold Sim.has_namespace, Sim.has_release, Sim.contexts, Sim.helm_rows; cbn;
      repeat match goal with
             | |- context [if ?b then _ else _] => destruct b; cbn
             end;
      repeat split; auto. }
  destruct c as [s|s q p]; cbn; destruct (E s) as (Es & Eo & En).
  - now split.
  - rewrite Eo. now split.
Qed.



(** * Further properties of deploy.sh *)

(** ** grep on the listing *)

Lemma prefix_append pat rest : String.prefix pat (pat ++ rest) = true.
Proof.
  induction pat as [|a pat IH]; cbn.
  - destruct rest; reflexivity.
  - destruct (ascii_dec a a) as [_|N]; [exact IH|now elim N].
Qed.

Lemma is_infix_prefix pat s : String.prefix pat s = true -> is_infix pat s = true.
Proof. intros H. destruct s; unfold is_infix; fold is_infix; now rewrite H. Qed.

Lemma is_infix_inside before pat rest :
  is_infix pat (before ++ pat ++ rest) = true.
Proof.
  induction before as [|a before IH].
  - change (EmptyString ++ pat ++ rest)%string with (pat ++ rest)%string.
    apply is_infix_prefix, prefix_append.
  - cbn. rewrite IH. apply orb_true_r.
Qed.

Lemma grep_found p lines :
  grep_status p lines = 0 <-> exists line, In line lines /\ line_matches p line = true.
Proof.
  unfold grep_status.
  destruct (existsb (line_matches p) lines) eqn:E.
  - split; [intros _|reflexivity]. now apply existsb_exists.
  - split; [discriminate|]. intros H. apply existsb_exists in H. congruence.
Qed.

Section Blocks.

Variable World : Type.
Variable exec : Simple -> World -> Reply World.

(** X1.  For a cluster name that [grep] reads letter for letter, the
    cluster block of [deploy_environment] asks kind to create the cluster
    exactly when its name is not, as a whole line, in the list that [kind
    get clusters] prints; and then a creation that fails ends the script
    with the status of [kind create cluster]. *)
Theorem deploy_cluster_creates_iff_absent name w :
  bre_literal name = true ->
  let r := deploy_cluster exec name w in
  let created := exec (KindCreateCluster name) (next (exec KindGetClusters w)) in
  (In (Plain (KindCreateCluster name)) (commands (events r)) <->
   ~ In name (stdout (exec KindGetClusters w))) /\
  (~ In name (stdout (exec KindGetClusters w)) ->
   outcome r = if Nat.eqb (status created) 0 then Ret tt else Exit (status created)).
Proof.
  intros _. cbn zeta. rewrite <- (grep_anchored_found name).
  unfold deploy_cluster, cluster_exists. sh_unfold. cbn.
  destruct (grep_status (Pat true name) (stdout (exec KindGetClusters w))) eqn:G; cbn.
  - split; [|intros N; now elim N].
    split; [intros [H|[]]; discriminate H|intros N; now elim N].
  - destruct (Nat.eqb (status (exec (KindCreateCluster name) (next (exec KindGetClusters w)))) 0);
      cbn; (split; [split; [discriminate|intros _; right; now left]|reflexivity]).
Qed.

(** X4.  The release probe is an unanchored [grep].  For an environment
    name that [grep] reads letter for letter, any line of [helm list] that
    contains the text echo-server-ENV, for instance the line of a release
    whose name only begins with it, makes the release block take the upgrade
    branch. *)
Theorem deploy_release_upgrades_on_partial_match ENV VALUES_FILE NAMESPACE w before rest :
  bre_literal ENV = true ->
  In (before ++ ("echo-server-" ++ ENV) ++ rest)%string (stdout (exec (HelmList NAMESPACE) w)) ->
  commands (events (deploy_release exec ENV VALUES_FILE NAMESPACE w)) =
  [release_probe ENV NAMESPACE;
   Plain (HelmUpgrade ("echo-server-" ++ ENV) "." VALUES_FILE NAMESPACE true)].
Proof.
  intros _ H.
  assert (grep_status (Pat false ("echo-server-" ++ ENV))
            (stdout (exec (HelmList NAMESPACE) w)) = 0) as G.
  { apply grep_found. eexists. split; [exact H|].
    unfold line_matches. cbn [anchored text]. apply is_infix_inside. }
  unfold deploy_release, release_probe. sh_unfold. cbn in *.
  rewrite G. cbn.
  destruct (Nat.eqb _ 0); reflexivity.
Qed.

(** X5.  The probe is a pipeline without [pipefail]: the status of
    [helm list] is not looked at.  When [helm list] prints nothing, be it
    because it failed, the release block takes the install branch. *)
Theorem deploy_release_installs_when_list_is_silent ENV VALUES_FILE NAMESPACE w :
  stdout (exec (HelmList NAMESPACE) w) = [] ->
  commands (events (deploy_release exec ENV VALUES_FILE NAMESPACE w)) =
  [release_probe ENV NAMESPACE;
   Plain (HelmInstall ("echo-server-" ++ ENV) "." VALUES_FILE NAMESPACE true)].
Proof.
  intros H. unfold deploy_release, release_probe. sh_unfold. cbn.
  rewrite H. cbn.
  destruct (Nat.eqb _ 0); reflexivity.
Qed.

(** X3.  Install, then upgrade.  Suppose that a release which helm reports
    installed or upgraded shows in the next [helm list] of its namespace.
    Then after a pass of the release block that succeeded, the next pass
    sends an upgrade, never a second install. *)
Theorem deploy_release_twice ENV VALUES_FILE NAMESPACE w :
  let w1 := next (exec (HelmList NAMESPACE) w) in
  (forall request,
     In request
        [HelmUpgrade ("echo-server-" ++ ENV) "." VALUES_FILE NAMESPACE true;
         HelmInstall ("echo-server-" ++ ENV) "." VALUES_FILE NAMESPACE true] ->
     status (exec request w1) = 0 ->
     grep_status (Pat false ("echo-server-" ++ ENV))
       (stdout (exec (HelmList NAMESPACE) (next (exec request w1)))) = 0) ->
  outcome (deploy_release exec ENV VALUES_FILE NAMESPACE w) = Ret tt ->
  commands (events (deploy_release exec ENV VALUES_FILE NAMESPACE
                      (world (deploy_release exec ENV VALUES_FILE NAMESPACE w)))) =
  [release_probe ENV NAMESPACE;
   Plain (HelmUpgrade ("echo-server-" ++ ENV) "." VALUES_FILE NAMESPACE true)].
Proof.
  cbn zeta. intros Listed.
  unfold deploy_release at 1 3, release_probe. sh_unfold. cbn.
  destruct (Nat.eqb (grep_status _ (stdout (exec (HelmList NAMESPACE) w))) 0); cbn;
    match goal with
    | |- context [status (exec ?rq ?w1)] =>
        assert (status (exec rq w1) = 0 ->
                grep_status (Pat false ("echo-server-" ++ ENV))
                  (stdout (exec (HelmList NAMESPACE) (next (exec rq w1)))) = 0) as L
          by (apply Listed; cbn; tauto);
        destruct (status (exec rq w1)) eqn:S; cbn; [intros _|discriminate]
    end;
    specialize (L eq_refl);
    unfold deploy_release, release_probe; sh_unfold; cbn in *;
    rewrite L; cbn; destruct (Nat.eqb _ 0); reflexivity.
Qed.

(** What the script expects of kubectl: a namespace whose creation succeeded
    is found afterwards, and looking a namespace up does not lose it. *)
Hypothesis created_is_found : forall ns w,
  status (exec (KubectlCreateNamespace ns) w) = 0 ->
  status (exec (KubectlGetNamespace ns) (next (exec (KubectlCreateNamespace ns) w))) = 0.

Hypothesis found_stays_found : forall ns w,
  status (exec (KubectlGetNamespace ns) w) = 0 ->
  status (exec (KubectlGetNamespace ns) (next (exec (KubectlGetNamespace ns) w))) = 0.

(** X2.  Ensuring a namespace twice: after a pass of the namespace block
    that succeeded, the next pass succeeds and only looks the namespace up;
    no second [kubectl create namespace] is sent. *)
Theorem deploy_namespace_twice ns w :
  outcome (deploy_namespace exec ns w) = Ret tt ->
  let w1 := world (deploy_namespace exec ns w) in
  outcome (deploy_namespace exec ns w1) = Ret tt /\
  commands (events (deploy_namespace exec ns w1)) = [Plain (KubectlGetNamespace ns)].
Proof.
  cbn zeta.
  assert (forall v, status (exec (KubectlGetNamespace ns) v) = 0 ->
            outcome (deploy_namespace exec ns v) = Ret tt /\
            commands (events (deploy_namespace exec ns v)) = [Plain (KubectlGetNamespace ns)])
    as Present.
  { intros v Hv. unfold deploy_namespace. sh_unfold. cbn. rewrite Hv. cbn. split; reflexivity. }
  intros H. apply Present. revert H.
  unfold deploy_namespace. sh_unfold. cbn.
  destruct (status (exec (KubectlGetNamespace ns) w)) eqn:G; cbn.
  - intros _. now apply found_stays_found.
  - destruct (status (exec (KubectlCreateNamespace ns) (next (exec (KubectlGetNamespace ns) w))))
      eqn:C; cbn; [intros _|discriminate].
    now apply created_is_found.
Qed.

End Blocks.

Lemma sim_created_is_found ns m :
  status (Sim.exec (KubectlCreateNamespace ns) m) = 0 ->
  status (Sim.exec (KubectlGetNamespace ns)
            (next (Sim.exec (KubectlCreateNamespace ns) m))) = 0.
Proof.
  cbn.
  destruct (Sim.mem (Sim.current m) (Sim.contexts m) && negb (Sim.has_namespace m ns))%bool;
    cbn; [intros _|discriminate].
  unfold Sim.has_namespace, Sim.same2. cbn.
  now rewrite !String.eqb_refl.
Qed.

Lemma sim_found_stays_found ns m :
  status (Sim.exec (KubectlGetNamespace ns) m) = 0 ->
  status (Sim.exec (KubectlGetNamespace ns)
            (next (Sim.exec (KubectlGetNamespace ns) m))) = 0.
Proof.
  cbn. destruct (Sim.has_namespace m ns) eqn:E; cbn; [intros _|discriminate].
  now rewrite E.
Qed.

(** On a fresh workstation nur-dev is not listed, and is created; where it
    is listed, it is not. *)
Lemma deploy_cluster_creates_iff_absent_witness :
  In (Plain (KindCreateCluster "nur-dev"))
     (commands (events (deploy_cluster Sim.exec "nur-dev" Sim.fresh))) /\
  ~ In (Plain (KindCreateCluster "nur-dev"))
       (commands (events (deploy_cluster Sim.exec "nur-dev" Sim.dev_only))).
Proof.
  split.
  - apply (proj1 (@deploy_cluster_creates_iff_absent _ Sim.exec "nur-dev" Sim.fresh eq_refl)).
    cbn. tauto.
  - intros H.
    apply (proj1 (@deploy_cluster_creates_iff_absent _ Sim.exec "nur-dev" Sim.dev_only
                    eq_refl)) in H.
    apply H. cbn. tauto.
Defined.

(** The dev namespace is ensured twice in a cluster that has none. *)
Lemma deploy_namespace_twice_witness :
  let r1 := deploy_namespace Sim.exec "dev" sim_dev_empty in
  let r2 := deploy_namespace Sim.exec "dev" (world r1) in
  In (Plain (KubectlCreateNamespace "dev")) (commands (events r1)) /\
  outcome r2 = Ret tt /\
  commands (events r2) = [Plain (KubectlGetNamespace "dev")].
Proof.
  split; [cbn; auto|].
  apply (@deploy_namespace_twice _ Sim.exec sim_created_is_found sim_found_stays_found
           "dev" sim_dev_empty).
  reflexivity.
Defined.

(** The release echo-server-dev is installed in a namespace that has none,
    then deployed again. *)
Lemma deploy_release_twice_witness :
  let w0 := world (deploy_namespace Sim.exec "dev" sim_dev_empty) in
  let r1 := deploy_release Sim.exec "dev" "values-dev.yaml" "dev" w0 in
  In (Plain (HelmInstall "echo-server-dev" "." "values-dev.yaml" "dev" true))
     (commands (events r1)) /\
  commands (events (deploy_release Sim.exec "dev" "values-dev.yaml" "dev" (world r1))) =
  [release_probe "dev" "dev";
   Plain (HelmUpgrade "echo-server-dev" "." "values-dev.yaml" "dev" true)].
Proof.
  split; [cbn; auto|].
  apply (@deploy_release_twice _ Sim.exec "dev" "values-dev.yaml" "dev"
           (world (deploy_namespace Sim.exec "dev" sim_dev_empty))).
  - intros request [<-|[<-|[]]]; vm_compute; intros H; congruence.
  - reflexivity.
Defined.

(** Only echo-server-dev-canary is installed: the probe for dev matches its
    line, and the script asks helm to upgrade echo-server-dev, which fails. *)
Lemma deploy_release_upgrades_on_partial_match_witness :
  let r := deploy_release Sim.exec "dev" "values-dev.yaml" "dev" sim_canary in
  Sim.has_release sim_canary "dev" "echo-server-dev" = false /\
  outcome r = Exit 1 /\
  commands (events r) =
  [release_probe "dev" "dev";
   Plain (HelmUpgrade "echo-server-dev" "." "values-dev.yaml" "dev" true)].
Proof.
  split; [reflexivity|]. split; [reflexivity|].
  apply (@deploy_release_upgrades_on_partial_match _ Sim.exec "dev" "values-dev.yaml" "dev"
           sim_canary "" "-canary dev 1 deployed").
  - reflexivity.
  - cbn. tauto.
Defined.

(** On a workstation without any cluster [helm list] fails and prints
    nothing: the script goes on to [helm install]. *)
Lemma deploy_release_installs_when_list_is_silent_witness :
  status (Sim.exec (HelmList "dev") Sim.fresh) = 1 /\
  commands (events (deploy_release Sim.exec "dev" "values-dev.yaml" "dev" Sim.fresh)) =
  [release_probe "dev" "dev";
   Plain (HelmInstall "echo-server-dev" "." "values-dev.yaml" "dev" true)].
Proof.
  split; [reflexivity|].
  apply (@deploy_release_installs_when_list_is_silent _ Sim.exec "dev" "values-dev.yaml"
           "dev" Sim.fresh).
  reflexivity.
Defined.

(** ** What a deployment never does *)

Section Deployment.

Variable World : Type.
Variable exec : Simple -> World -> Reply World.

(** X6.  [deploy_environment] sends a request to helm (install or upgrade)
    only after [kubectl config use-context] for its own cluster has
    succeeded and its namespace has been found or created. *)
Theorem deploy_environment_release_after_context ENV CLUSTER_NAME VALUES_FILE NAMESPACE w :
  let log := events (deploy_environment exec ENV CLUSTER_NAME VALUES_FILE NAMESPACE w) in
  existsb (fun c => is_release_change (simple_of c)) (commands log) = true ->
  In (Run (Plain (KubectlUseContext ("kind-" ++ CLUSTER_NAME))) 0) log /\
  (In (Test (Plain (KubectlGetNamespace NAMESPACE)) 0) log \/
   In (Run (Plain (KubectlCreateNamespace NAMESPACE)) 0) log).
Proof.
  cbn zeta.
  sh_paths (deploy_environment exec ENV CLUSTER_NAME VALUES_FILE NAMESPACE w).
  unfold deploy_environment, deploy_cluster, deploy_context, deploy_namespace,
    deploy_release, deploy_display, cluster_exists, release_probe.
  sh_exec; sh_done; cbn; intros Hrq; try discriminate Hrq;
    settle_statuses;
    (split; [find_in | first [left; find_in | right; find_in]]).
Qed.

(** X7.  Every command of [deploy_environment] is addressed to its own
    cluster, to the context of that cluster, or to its own namespace. *)
Theorem deploy_environment_stays_home ENV CLUSTER_NAME VALUES_FILE NAMESPACE w c :
  In c (commands (events (deploy_environment exec ENV CLUSTER_NAME VALUES_FILE NAMESPACE w))) ->
  match phase (simple_of c) with
  | Cluster => target c = CLUSTER_NAME
  | Context => target c = ("kind-" ++ CLUSTER_NAME)%string
  | _ => target c = NAMESPACE
  end.
Proof.
  intros H.
  assert (In (step_of c) (deploy_plan CLUSTER_NAME NAMESPACE)) as P.
  { apply (forallb_existsb_In _ _
             (deploy_environment_within exec ENV CLUSTER_NAME VALUES_FILE NAMESPACE w)).
    now apply in_map. }
  unfold step_of in P. in_cases P; injection P as Hp Ht; rewrite <- Hp; cbn; congruence.
Qed.

End Deployment.

(** A first deployment of dev on a fresh workstation. *)
Lemma deploy_environment_release_after_context_witness :
  let log := events (deploy_environment Sim.exec "dev" "nur-dev" "values-dev.yaml" "dev"
                       Sim.fresh) in
  In (Run (Plain (KubectlUseContext "kind-nur-dev")) 0) log /\
  (In (Test (Plain (KubectlGetNamespace "dev")) 0) log \/
   In (Run (Plain (KubectlCreateNamespace "dev")) 0) log).
Proof.
  apply (@deploy_environment_release_after_context _ Sim.exec "dev" "nur-dev"
           "values-dev.yaml" "dev" Sim.fresh).
  reflexivity.
Defined.

Lemma deploy_environment_stays_home_witness :
  target (Plain (HelmInstall "echo-server-prd" "." "values-prd.yaml" "prd" true)) = "prd".
Proof.
  apply (@deploy_environment_stays_home _ Sim.exec "prd" "nur-prd" "values-prd.yaml" "prd"
           Sim.fresh (Plain (HelmInstall "echo-server-prd" "." "values-prd.yaml" "prd" true))).
  vm_compute. tauto.
Defined.

(** ** The options of main *)

Section Options.

Variable World : Type.
Variable exec : Simple -> World -> Reply World.
Variable on_path : World -> string -> bool.

Lemma first_arg_is_help args :
  existsb (String.eqb (first_arg args)) ["help"; "--help"; "-h"] = true ->
  dispatch exec args = @show_usage World.
Proof.
  unfold dispatch. cbn.
  destruct (String.eqb (first_arg args) "help") eqn:E1;
    [apply String.eqb_eq in E1; rewrite E1; reflexivity|].
  destruct (String.eqb (first_arg args) "--help") eqn:E2;
    [apply String.eqb_eq in E2; rewrite E2; reflexivity|].
  destruct (String.eqb (first_arg args) "-h") eqn:E3;
    [apply String.eqb_eq in E3; rewrite E3; reflexivity|].
  discriminate.
Qed.

(** X8.  Asked for help ([help], [--help], [-h], an empty first argument
    or no argument at all) and with the three tools found, the script prints
    the usage text and nothing else, runs no command and ends with status
    0. *)
Theorem main_help args w :
  tools_present on_path w = true ->
  existsb (String.eqb (first_arg args)) ["help"; "--help"; "-h"] = true ->
  main exec on_path args w = mkResult (Ret tt) w (tool_checks ++ [Usage]).
Proof.
  intros T H. rewrite (main_ready exec on_path args w T).
  rewrite (first_arg_is_help args H). reflexivity.
Qed.

(** X9.  With the three tools found, an option that is none of dev, prd,
    all, status, clean, help, --help, -h is answered by one error line that
    repeats it, an empty line and the usage text; no command is run and the
    exit status is 1. *)
Theorem main_unknown_option args w :
  tools_present on_path w = true ->
  known_option args = false ->
  main exec on_path args w =
  mkResult (Exit 1) w
    (tool_checks ++ [Say Error ("Unknown option: " ++ hd "" args); Echo ""; Usage]).
Proof.
  intros T K. rewrite (main_ready exec on_path args w T).
  revert K. unfold known_option, dispatch. cbn.
  destruct (String.eqb (first_arg args) "dev"); [discriminate|].
  destruct (String.eqb (first_arg args) "prd"); [discriminate|].
  destruct (String.eqb (first_arg args) "all"); [discriminate|].
  destruct (String.eqb (first_arg args) "status"); [discriminate|].
  destruct (String.eqb (first_arg args) "clean"); [discriminate|].
  destruct (String.eqb (first_arg args) "help"),
    (String.eqb (first_arg args) "--help"), (String.eqb (first_arg args) "-h");
    cbn; intros K; try discriminate K; reflexivity.
Qed.

Lemma main_deploy_one w :
  tools_present on_path w = true ->
  (let d := deploy_environment exec "dev" "nur-dev" "values-dev.yaml" "dev" w in
   main exec on_path ["dev"] w =
   mkResult (outcome d) (world d) (tool_checks ++ events d)) /\
  (let p := deploy_environment exec "prd" "nur-prd" "values-prd.yaml" "prd" w in
   main exec on_path ["prd"] w =
   mkResult (outcome p) (world p) (tool_checks ++ events p)).
Proof.
  intros T. rewrite !(main_ready exec on_path _ w T). split; reflexivity.
Qed.

Lemma main_deploy_all w :
  tools_present on_path w = true ->
  let d := deploy_environment exec "dev" "nur-dev" "values-dev.yaml" "dev" w in
  let p := deploy_environment exec "prd" "nur-prd" "values-prd.yaml" "prd" (world d) in
  main exec on_path ["all"] w =
  match outcome d with
  | Ret _ =>
      mkResult (outcome p) (world p)
        (tool_checks ++ events d
         ++ [Echo ""; Say Info "=========================================="; Echo ""]
         ++ events p)
  | Exit n => mkResult (Exit n) (world d) (tool_checks ++ events d)
  end.
Proof.
  intros T. cbn zeta. rewrite (main_ready exec on_path _ w T).
  unfold dispatch. cbn [first_arg String.eqb Ascii.eqb Bool.eqb].
  sh_unfold. cbn.
  destruct (deploy_environment exec "dev" "nur-dev" "values-dev.yaml" "dev" w)
    as [[[]|k] w1 l1]; cbn; [|reflexivity].
  destruct (deploy_environment exec "prd" "nur-prd" "values-prd.yaml" "prd" w1)
    as [o2 w2 l2]. reflexivity.
Qed.

(** X16.  [deploy all] is [deploy dev] followed by [deploy prd]: when the
    deployment of dev reached its end (and the tools are still found), the
    script ends as [deploy prd] started from there ends, in the same world,
    having run the commands of the one and then the commands of the other. *)
Theorem deploy_all_is_dev_then_prd w :
  let dev := main exec on_path ["dev"] w in
  let prd := main exec on_path ["prd"] (world dev) in
  let all := main exec on_path ["all"] w in
  outcome dev = Ret tt ->
  tools_present on_path (world dev) = true ->
  outcome all = outcome prd /\
  world all = world prd /\
  commands (events all) = commands (events dev) ++ commands (events prd).
Proof.
  cbn zeta.
  destruct (tools_present on_path w) eqn:T.
  - rewrite (main_deploy_all w T), (proj1 (main_deploy_one w T)).
    cbn [outcome world events].
    destruct (deploy_environment exec "dev" "nur-dev" "values-dev.yaml" "dev" w)
      as [[[]|k] w1 l1]; cbn [outcome world events]; [|discriminate].
    intros _ T1. rewrite (proj2 (main_deploy_one w1 T1)). cbn [outcome world events].
    split; [reflexivity|]. split; [reflexivity|].
    rewrite !commands_app. reflexivity.
  - destruct (main_not_ready exec on_path ["dev"] w T) as (cs & msg & -> & _).
    discriminate.
Qed.

End Options.

(** Two more words after the option. *)
Lemma main_help_witness :
  Sim.run_main [] Sim.dev_only = mkResult (Ret tt) Sim.dev_only (tool_checks ++ [Usage]) /\
  Sim.run_main [""; "dev"] Sim.dev_only =
  mkResult (Ret tt) Sim.dev_only (tool_checks ++ [Usage]).
Proof.
  split.
  - apply (@main_help _ Sim.exec Sim.on_path [] Sim.dev_only); reflexivity.
  - apply (@main_help _ Sim.exec Sim.on_path [""; "dev"] Sim.dev_only); reflexivity.
Defined.

Lemma main_unknown_option_witness :
  Sim.run_main ["deploy"; "dev"] Sim.dev_only =
  mkResult (Exit 1) Sim.dev_only
    (tool_checks ++ [Say Error "Unknown option: deploy"; Echo ""; Usage]).
Proof.
  apply (@main_unknown_option _ Sim.exec Sim.on_path ["deploy"; "dev"] Sim.dev_only);
    reflexivity.
Defined.

Lemma deploy_all_is_dev_then_prd_witness :
  let dev := Sim.run_main ["dev"] Sim.fresh in
  outcome (Sim.run_main ["all"] Sim.fresh) = Ret tt /\
  world (Sim.run_main ["all"] Sim.fresh) = world (Sim.run_main ["prd"] (world dev)) /\
  commands (events (Sim.run_main ["all"] Sim.fresh)) =
  commands (events dev) ++ commands (events (Sim.run_main ["prd"] (world dev))).
Proof.
  apply (@deploy_all_is_dev_then_prd _ Sim.exec Sim.on_path Sim.fresh); reflexivity.
Defined.

(** ** Status and clean, environment by environment *)

Section Environments.

Variable World : Type.
Variable exec : Simple -> World -> Reply World.

(** X10.  [show_status] is not isolated either: when a statement addressed
    to dev fails (the context switch, the listing of the release, the
    listing of the pods), the script ends there with the status of that
    statement, and prd is not even probed. *)
Theorem show_status_stops_at_dev_failure w c s :
  let r := show_status exec w in
  In (Run c s) (events r) ->
  s <> 0 ->
  addressed_to "dev" c = true ->
  outcome r = Exit s /\
  existsb (addressed_to "prd") (commands (events r)) = false.
Proof.
  cbn zeta. sh_paths (show_status exec w).
  unfold show_status, for_in, status_env, cluster_exists, release_probe.
  sh_exec; sh_done; intros Hin Hs Hdev; in_cases Hin;
    inversion Hin; subst; vm_compute in Hdev; try discriminate Hdev;
    zero_status; try congruence;
    (split; reflexivity).
Qed.

(** X11.  Nor is [clean_deployments]: when a statement addressed to dev
    fails (the context switch, the uninstall), the script ends there with
    the status of that statement, prd is not cleaned, and "Cleanup
    completed!" is not printed. *)
Theorem clean_stops_at_dev_failure w c s :
  let r := clean_deployments exec w in
  In (Run c s) (events r) ->
  s <> 0 ->
  addressed_to "dev" c = true ->
  outcome r = Exit s /\
  existsb (addressed_to "prd") (commands (events r)) = false /\
  ~ In (Say Info "Cleanup completed!") (events r).
Proof.
  cbn zeta. sh_paths (clean_deployments exec w).
  unfold clean_deployments, for_in, clean_env, cluster_exists, release_probe.
  sh_exec; sh_done; intros Hin Hs Hdev; in_cases Hin;
    inversion Hin; subst; vm_compute in Hdev; try discriminate Hdev;
    zero_status; try congruence;
    (split; [reflexivity|split; [reflexivity|intros Hc; in_cases Hc]]).
Qed.

(** X14.  "Cleanup completed!" is the last line of [clean_deployments] and
    is printed exactly when the script reached its end, that is when no
    statement failed. *)
Theorem clean_completed_is_truthful w :
  let r := clean_deployments exec w in
  (In (Say Info "Cleanup completed!") (events r) <-> outcome r = Ret tt) /\
  (outcome r = Ret tt <-> existsb failed_step (events r) = false).
Proof.
  cbn zeta. sh_paths (clean_deployments exec w).
  unfold clean_deployments, for_in, clean_env, cluster_exists, release_probe.
  sh_exec; sh_done; cbn;
    repeat match goal with
           | H : Nat.eqb _ 0 = _ |- _ => rewrite ?H; clear H
           end; cbn;
    (split; split; intros H; try reflexivity; try discriminate H;
     try (in_cases H); try find_in).
Qed.

(** X12.  An environment whose cluster [clean_deployments] does not find is
    passed over in silence: the probe is the only command addressed to it,
    and neither "Cleaning ENV environment..." nor "No release found in ENV"
    is printed. *)
Theorem clean_absent_cluster_silent ENV st w :
  let log := events (clean_deployments exec w) in
  let probe := PipeGrep KindGetClusters true (Pat true ("nur-" ++ ENV)) in
  In (Test probe st) log ->
  st <> 0 ->
  (forall c, In c (commands log) -> addressed_to ENV c = true -> c = probe) /\
  ~ In (Say Info ("Cleaning " ++ ENV ++ " environment...")) log /\
  ~ In (Say Warning ("No release found in " ++ ENV)) log.
Proof.
  cbn zeta. sh_paths (clean_deployments exec w).
  unfold clean_deployments, for_in, clean_env, cluster_exists, release_probe.
  sh_exec; sh_done; intros Hin Hst; in_cases Hin;
    inversion Hin; subst; zero_status; try congruence;
    (split; [intros c Hc; in_cases Hc; subst c; vm_compute; congruence|]);
    (split; intros Hc; in_cases Hc).
Qed.

(** X13.  When the release probe of an environment finds the release,
    [clean_deployments] asks helm to uninstall echo-server-ENV from the
    namespace ENV, and prints "ENV release uninstalled" exactly when helm
    reports success. *)
Theorem clean_found_release_uninstalled ENV w :
  let log := events (clean_deployments exec w) in
  In (Test (release_probe ENV ENV) 0) log ->
  exists s,
    In (Run (Plain (HelmUninstall ("echo-server-" ++ ENV) ENV)) s) log /\
    (s = 0 <-> In (Say Info (ENV ++ " release uninstalled")) log).
Proof.
  cbn zeta. sh_paths (clean_deployments exec w).
  unfold clean_deployments, for_in, clean_env, cluster_exists, release_probe.
  sh_exec; sh_done; intros Hin; in_cases Hin;
    injection Hin; intros; subst;
    try match goal with
        | H : ?x = 0, H' : Nat.eqb ?x 0 = false |- _ =>
            rewrite H in H'; discriminate H'
        end;
    eexists; (split; [find_in|]);
    (split; [intros E; try find_in | intros Hc; try (in_cases Hc)]);
    try match goal with
        | H : ?x = 0, H' : Nat.eqb ?x 0 = false |- _ =>
            rewrite H in H'; discriminate H'
        end;
    zero_status; congruence.
Qed.

End Environments.

(** The kubeconfig has lost the dev context: status and clean stop at dev. *)
Lemma show_status_stops_at_dev_failure_witness :
  let r := show_status sim_exec_no_dev_context Sim.dev_released in
  outcome r = Exit 1 /\
  existsb (addressed_to "prd") (commands (events r)) = false.
Proof.
  apply (@show_status_stops_at_dev_failure _ sim_exec_no_dev_context Sim.dev_released
           (Plain (KubectlUseContext "kind-nur-dev")) 1).
  - vm_compute. tauto.
  - discriminate.
  - reflexivity.
Defined.

Lemma clean_stops_at_dev_failure_witness :
  let r := clean_deployments sim_exec_no_dev_context Sim.dev_released in
  outcome r = Exit 1 /\
  existsb (addressed_to "prd") (commands (events r)) = false /\
  ~ In (Say Info "Cleanup completed!") (events r).
Proof.
  apply (@clean_stops_at_dev_failure _ sim_exec_no_dev_context Sim.dev_released
           (Plain (KubectlUseContext "kind-nur-dev")) 1).
  - vm_compute. tauto.
  - discriminate.
  - reflexivity.
Defined.

(** Teardown where there is no prd cluster. *)
Lemma clean_absent_cluster_silent_witness :
  let log := events (clean_deployments Sim.exec Sim.dev_only) in
  (forall c, In c (commands log) -> addressed_to "prd" c = true ->
             c = PipeGrep KindGetClusters true (Pat true "nur-prd")) /\
  ~ In (Say Info "Cleaning prd environment...") log /\
  ~ In (Say Warning "No release found in prd") log.
Proof.
  apply (@clean_absent_cluster_silent _ Sim.exec "prd" 1 Sim.dev_only).
  - vm_compute. tauto.
  - discriminate.
Defined.

(** Teardown where dev has its release. *)
Lemma clean_found_release_uninstalled_witness :
  exists s,
    In (Run (Plain (HelmUninstall "echo-server-dev" "dev")) s)
       (events (clean_deployments Sim.exec Sim.dev_released)) /\
    (s = 0 <-> In (Say Info "dev release uninstalled")
                  (events (clean_deployments Sim.exec Sim.dev_released))).
Proof.
  apply (@clean_found_release_uninstalled _ Sim.exec "dev" Sim.dev_released).
  vm_compute. tauto.
Defined.

(** ** Nothing runs after a failed statement *)

Section Halting.

Variable World : Type.
Variable exec : Simple -> World -> Reply World.

Lemma halts_bind A B (m : Sh World A) (f : A -> Sh World B) :
  always_halts_at_failure m -> (forall a, always_halts_at_failure (f a)) ->
  always_halts_at_failure (bind m f).
Proof.
  intros Hm Hf w. specialize (Hm w). unfold halts_at_failure, bind in *.
  destruct (m w) as [[a|n] w1 l1]; cbn in *; [|exact Hm].
  specialize (Hf a w1). unfold halts_at_failure in Hf.
  destruct (f a w1) as [[b|n] w2 l2]; cbn in *.
  - apply Forall_app. now split.
  - destruct Hf as (l & c & -> & Hn & Hl).
    exists (l1 ++ l), c. rewrite app_assoc. repeat split; [assumption|].
    apply Forall_app. now split.
Qed.

Lemma halts_run c : always_halts_at_failure (run exec c).
Proof.
  intros w. unfold halts_at_failure, run.
  destruct (cmd_reply exec c w) as [st w1]. cbn.
  destruct (Nat.eqb st 0) eqn:E; cbn.
  - repeat constructor. cbn. now rewrite E.
  - exists [], c. repeat split; [|constructor].
    intros ->. discriminate E.
Qed.

Lemma halts_test c : always_halts_at_failure (test exec c).
Proof.
  intros w. unfold halts_at_failure, test.
  destruct (cmd_reply exec c w) as [st w1]. cbn. repeat constructor.
Qed.

Lemma halts_silent e :
  failed_step e = false -> always_halts_at_failure (World:=World) (emit e).
Proof. intros H w. unfold halts_at_failure, emit. cbn. now repeat constructor. Qed.

Lemma halts_ret A (a : A) : always_halts_at_failure (World:=World) (ret a).
Proof. intros w. unfold halts_at_failure, ret. cbn. constructor. Qed.

Lemma halts_for_in l body :
  (forall x, always_halts_at_failure (body x)) ->
  always_halts_at_failure (World:=World) (for_in l body).
Proof.
  intros H. induction l as [|x l IH]; cbn.
  - apply halts_ret.
  - apply halts_bind; [apply H|intros _; exact IH].
Qed.

Ltac halts_step :=
  first [ apply halts_bind; [|intros ?]
        | apply halts_run
        | apply halts_test
        | apply halts_ret
        | apply halts_silent; reflexivity
        | apply halts_for_in; intros ?
        | match goal with
          | |- always_halts_at_failure (if negb ?b then _ else _) => destruct b; cbn [negb]
          | |- always_halts_at_failure (if ?b then _ else _) => destruct b
          end ].

(** X15.  [set -e] at work in the three operations: in every run of
    [deploy_environment], [show_status] and [clean_deployments] at most one
    statement fails; it is the last entry of the log, the script ends with
    its status, and nothing runs or is printed after it.  When no statement
    fails the operation reaches its end. *)
Theorem operations_halt_at_first_failure :
  (forall ENV CLUSTER_NAME VALUES_FILE NAMESPACE,
     always_halts_at_failure
       (deploy_environment exec ENV CLUSTER_NAME VALUES_FILE NAMESPACE)) /\
  always_halts_at_failure (show_status exec) /\
  always_halts_at_failure (clean_deployments exec).
Proof.
  split; [|split].
  - intros ENV CLUSTER_NAME VALUES_FILE NAMESPACE.
    unfold deploy_environment, deploy_cluster, deploy_context, deploy_namespace,
      deploy_release, deploy_display, cluster_exists,
      print_info, print_error, print_warning, say, echo.
    repeat halts_step.
  - unfold show_status, status_env, cluster_exists,
      print_info, print_error, print_warning, say, echo.
    repeat halts_step.
  - unfold clean_deployments, clean_env, cluster_exists,
      print_info, print_error, print_warning, say, echo.
    repeat halts_step.
Qed.

End Halting.

(** ** deploy.ps1 and deploy.sh on a missing tool *)

Section TwoScripts.

Variable World : Type.
Variable exec : Simple -> World -> Reply World.
Variable on_path : World -> string -> bool.

(** X17.  [Test-Prerequisites] of deploy.ps1 looks all three tools up,
    whatever it finds, and names every missing one, in the order helm, kind,
    kubectl, in a single error line; it ends the script with status 1
    exactly when [main] of deploy.sh does, that is when one of the three is
    missing. *)
Theorem Test_Prerequisites_reports_every_missing_tool args w :
  let r := Test_Prerequisites on_path w in
  let missing := filter (fun t => negb (on_path w t)) ["helm"; "kind"; "kubectl"] in
  events r =
  [Check "helm" (on_path w "helm"); Check "kind" (on_path w "kind");
   Check "kubectl" (on_path w "kubectl")]
  ++ (if tools_present on_path w then []
      else [Say Error ("Missing required tools: " ++ String.concat ", " missing);
            Say Error "Please install the missing tools before running this script."]) /\
  outcome r = (if tools_present on_path w then Ret tt else Exit 1) /\
  (tools_present on_path w = false ->
   exit_status r = exit_status (main exec on_path args w)).
Proof.
  cbn zeta. split; [|split].
  - unfold Test_Prerequisites, note_missing, command_v, tools_present. sh_unfold. cbn.
    destruct (on_path w "helm"); cbn; destruct (on_path w "kind"); cbn;
      destruct (on_path w "kubectl"); reflexivity.
  - unfold Test_Prerequisites, note_missing, command_v, tools_present. sh_unfold. cbn.
    destruct (on_path w "helm"); cbn; destruct (on_path w "kind"); cbn;
      destruct (on_path w "kubectl"); reflexivity.
  - intros T. destruct (main_not_ready exec on_path args w T) as (cs & msg & -> & _).
    revert T.
    unfold Test_Prerequisites, note_missing, command_v, tools_present, exit_status.
    sh_unfold. cbn.
    destruct (on_path w "helm"); cbn; destruct (on_path w "kind"); cbn;
      destruct (on_path w "kubectl"); cbn; intros T; try discriminate T; reflexivity.
Qed.

End TwoScripts.

(** A workstation with kubectl only. *)
Lemma Test_Prerequisites_reports_every_missing_tool_witness :
  let m := Sim.mkMachine ["kubectl"] true [] "" [] [] in
  In (Say Error "Missing required tools: helm, kind")
     (events (Test_Prerequisites Sim.on_path m)) /\
  exit_status (Test_Prerequisites Sim.on_path m) = exit_status (Sim.run_main ["status"] m).
Proof.
  cbn zeta.
  pose proof (@Test_Prerequisites_reports_every_missing_tool _ Sim.exec Sim.on_path
                ["status"] (Sim.mkMachine ["kubectl"] true [] "" [] [])) as (E & _ & S).
  split.
  - rewrite E. vm_compute. tauto.
  - apply S. reflexivity.
Defined.

(** ** More on what the operations do and never do *)

Ltac use_statuses :=
  cbn;
  repeat match goal with
         | H : Nat.eqb _ 0 = _ |- _ => rewrite ?H; clear H
         end;
  cbn.

Section Operations.

Variable World : Type.
Variable exec : Simple -> World -> Reply World.
Variable on_path : World -> string -> bool.

(** X18.  The display block runs under [set -e] as well.  When one of its
    three [kubectl get] fails, the deployment ends with a failure although
    helm had succeeded and the script had already announced it. *)
Theorem deploy_environment_display_failure ENV CLUSTER_NAME VALUES_FILE NAMESPACE w :
  let r := deploy_environment exec ENV CLUSTER_NAME VALUES_FILE NAMESPACE w in
  existsb (failed_in Display) (events r) = true ->
  outcome r <> Ret tt /\
  (In (Say Info "Installation completed successfully!") (events r) \/
   In (Say Info "Upgrade completed successfully!") (events r)).
Proof.
  cbn zeta.
  sh_paths (deploy_environment exec ENV CLUSTER_NAME VALUES_FILE NAMESPACE w).
  unfold deploy_environment, deploy_cluster, deploy_context, deploy_namespace,
    deploy_release, deploy_display, cluster_exists, release_probe.
  sh_exec; sh_done; use_statuses; intros H; try discriminate H;
    (split; [discriminate | first [left; find_in | right; find_in]]).
Qed.

(** X21.  [deploy_environment] never uninstalls, and neither
    [clean_deployments] nor [show_status] ever creates a cluster or a
    namespace, or installs or upgrades a release. *)
Theorem operations_keep_to_their_role :
  (forall ENV CLUSTER_NAME VALUES_FILE NAMESPACE w,
     existsb (fun c => is_uninstall (simple_of c))
       (commands (events (deploy_environment exec ENV CLUSTER_NAME VALUES_FILE NAMESPACE w)))
     = false) /\
  (forall w,
     existsb (fun c => is_provision (simple_of c))
       (commands (events (clean_deployments exec w))) = false) /\
  (forall w,
     existsb (fun c => is_provision (simple_of c))
       (commands (events (show_status exec w))) = false).
Proof.
  split; [|split].
  - intros ENV CLUSTER_NAME VALUES_FILE NAMESPACE w.
    unfold deploy_environment, deploy_cluster, deploy_context, deploy_namespace,
      deploy_release, deploy_display, cluster_exists, release_probe.
    sh_exec; reflexivity.
  - intros w.
    unfold clean_deployments, for_in, clean_env, cluster_exists, release_probe.
    sh_exec; reflexivity.
  - intros w.
    unfold show_status, for_in, status_env, cluster_exists, release_probe.
    sh_exec; reflexivity.
Qed.

(** X20.  [show_status] lists the release line and the pods of an
    environment exactly when the release probe of that environment found
    the release; otherwise it prints "No Helm release found in ENV". *)
Theorem status_lists_found_release ENV st w :
  let log := events (show_status exec w) in
  let listing := PipeGrep (HelmList ENV) false (Pat false ("echo-server-" ++ ENV)) in
  In (Test (release_probe ENV ENV) st) log ->
  (st = 0 -> exists s, In (Run listing s) log) /\
  (st <> 0 ->
   (forall s, ~ In (Run listing s) log) /\
   In (Say Warning ("No Helm release found in " ++ ENV)) log).
Proof.
  cbn zeta. sh_paths (show_status exec w).
  unfold show_status, for_in, status_env, cluster_exists, release_probe.
  sh_exec; sh_done; intros Hin; in_cases Hin;
    inversion Hin; subst;
    (split; intros Hst;
     [ try match goal with
           | H : ?x = 0, H' : Nat.eqb ?x 0 = false |- _ =>
               rewrite H in H'; discriminate H'
           end;
       eexists; find_in
     | zero_status; try congruence;
       (split; [intros s Hs; in_cases Hs | find_in]) ]).
Qed.

(** X19.  [main] of deploy.sh stops at the first tool it does not find, in
    the order helm, kind, kubectl: it names that tool only and does not look
    the later ones up. *)
Theorem main_names_first_missing_tool args w :
  let log := events (main exec on_path args w) in
  (on_path w "helm" = false ->
   log = [Check "helm" false;
          Say Error "Helm is not installed. Please install Helm first."]) /\
  (on_path w "helm" = true -> on_path w "kind" = false ->
   log = [Check "helm" true; Check "kind" false;
          Say Error "kind is not installed. Please install kind first."]) /\
  (on_path w "helm" = true -> on_path w "kind" = true -> on_path w "kubectl" = false ->
   log = [Check "helm" true; Check "kind" true; Check "kubectl" false;
          Say Error "kubectl is not installed. Please install kubectl first."]).
Proof.
  cbn zeta. unfold main, require_tool, command_v. sh_unfold. cbn.
  split; [|split].
  - intros ->. reflexivity.
  - intros -> H. cbn. rewrite H. reflexivity.
  - intros -> H1 H2. cbn. rewrite H1. cbn. rewrite H2. reflexivity.
Qed.

End Operations.

(** The dev cluster exists but kubectl points elsewhere when the pods are
    listed: a collaborator whose [kubectl get pods] fails. *)
Lemma deploy_environment_display_failure_witness :
  let exec := fun c m =>
      match c with
      | KubectlGet "pods" _ _ => Sim.failed m
      | _ => Sim.exec c m
      end in
  let r := deploy_environment exec "dev" "nur-dev" "values-dev.yaml" "dev" Sim.fresh in
  outcome r <> Ret tt /\
  (In (Say Info "Installation completed successfully!") (events r) \/
   In (Say Info "Upgrade completed successfully!") (events r)).
Proof.
  cbn zeta.
  apply (@deploy_environment_display_failure _
           (fun c m => match c with
                       | KubectlGet "pods" _ _ => Sim.failed m
                       | _ => Sim.exec c m
                       end)
           "dev" "nur-dev" "values-dev.yaml" "dev" Sim.fresh).
  reflexivity.
Defined.

Lemma status_lists_found_release_witness :
  (exists s, In (Run (PipeGrep (HelmList "dev") false (Pat false "echo-server-dev")) s)
               (events (show_status Sim.exec Sim.dev_released))) /\
  In (Say Warning "No Helm release found in prd")
     (events (show_status Sim.exec Sim.dev_released)).
Proof.
  split.
  - apply (proj1 (@status_lists_found_release _ Sim.exec "dev" 0 Sim.dev_released
                    ltac:(vm_compute; tauto)) eq_refl).
  - apply (proj2 (@status_lists_found_release _ Sim.exec "prd" 1 Sim.dev_released
                    ltac:(vm_compute; tauto))).
    discriminate.
Defined.

Lemma main_names_first_missing_tool_witness :
  events (Sim.run_main ["all"] Sim.no_helm) =
  [Check "helm" false; Say Error "Helm is not installed. Please install Helm first."].
Proof.
  apply (proj1 (@main_names_first_missing_tool _ Sim.exec Sim.on_path ["all"] Sim.no_helm)).
  reflexivity.
Defined.
